(** * WFPlayer: the player facade of [src/index.js]

    A shallow embedding of the [WFPlayer] class: its option scheme and
    [setOptions], the playback getters, [seek], [load], [changeChannel],
    the constructor and [destroy] together with the module-level registry
    of live instances.

    Methods are written in a small state-and-exception monad: a JavaScript
    [throw] keeps every assignment made before it, so a failing computation
    still returns the state it reached. *)

From Stdlib Require Import QArith Qcanon Qround Ascii.
From stdpp Require Import gmap strings list fin_maps.

Local Open Scope Z_scope.

(** ** Numbers

    A JavaScript number is NaN, one of the two infinities, or a finite value.
    The class never does arithmetic on numbers: it compares them, tests them
    with [Number.isInteger], rounds one with [Math.ceil] and clamps one.
    Finite values are therefore kept as canonical rationals, on which these
    operations are exact; [-0] and [+0] are one value, as they are for
    [===], [<] and [<=]. *)

Inductive number :=
  | NaN
  | NegInfinity
  | Infinity
  | Fin (q : Qc).

Definition num_Z (z : Z) : number := Fin (Qc_of_Z z).
Definition num_Q (q : Q) : number := Fin (Q2Qc q).

(** [a < b], [a <= b], [a > b], [a >= b]: false as soon as one side is NaN. *)
Definition num_lt (a b : number) : bool :=
  match a, b with
  | NaN, _ | _, NaN => false
  | NegInfinity, NegInfinity => false
  | NegInfinity, _ => true
  | _, NegInfinity => false
  | Infinity, _ => false
  | Fin _, Infinity => true
  | Fin x, Fin y => match (x ?= y)%Qc with Lt => true | _ => false end
  end.

Definition num_le (a b : number) : bool :=
  match a, b with
  | NaN, _ | _, NaN => false
  | NegInfinity, _ => true
  | _, NegInfinity => false
  | _, Infinity => true
  | Infinity, Fin _ => false
  | Fin x, Fin y => match (x ?= y)%Qc with Gt => false | _ => true end
  end.

Definition num_gt (a b : number) : bool := num_lt b a.
Definition num_ge (a b : number) : bool := num_le b a.

(** [a === b] on numbers: NaN is different from everything, itself included. *)
Definition num_strict_eq (a b : number) : bool :=
  match a, b with
  | NegInfinity, NegInfinity | Infinity, Infinity => true
  | Fin x, Fin y => bool_decide (x = y)
  | _, _ => false
  end.

(** [Number.isInteger]: a finite value without fractional part. *)
Definition Number_isInteger (a : number) : bool :=
  match a with
  | Fin q => bool_decide (Qden (this q) = 1%positive)
  | _ => false
  end.

(** [Math.ceil]: NaN and the infinities are returned as they are. *)
Definition Math_ceil (a : number) : number :=
  match a with
  | Fin q => num_Z (Qceiling (this q))
  | _ => a
  end.

(** [Math.min] and [Math.max] of two numbers: NaN if either is NaN. *)
Definition Math_min (a b : number) : number :=
  match a, b with
  | NaN, _ | _, NaN => NaN
  | _, _ => if num_le a b then a else b
  end.

Definition Math_max (a b : number) : number :=
  match a, b with
  | NaN, _ | _, NaN => NaN
  | _, _ => if num_le a b then b else a
  end.

(** Modelled from the spec: [clamp] of [./utils], which is not among the
    sources. The spec has [seek] clamp its argument to the interval
    [[0, duration]]: the value is raised to the lower bound, then lowered to
    the upper bound. *)
Definition clamp (num lo hi : number) : number :=
  Math_min (Math_max num lo) hi.

(** ** Values

    The values the class receives and stores. Objects are told apart the way
    the class tells them apart: by [kindOf], by [instanceof] of the two media
    element classes, and by the two capabilities [load] probes. *)

(** What the class reads of an [HTMLVideoElement] or [HTMLAudioElement]. *)
Module MediaElement.
Inductive Tag := HTMLVideoElement | HTMLAudioElement.

Record t := {
  tag : Tag;
  currentTime : number;
  duration : number;
  paused : bool;
  ended : bool;
  readyState : nat;
  currentSrc : string;
}.

(** [element.currentTime = time] *)
Definition set_currentTime (time : number) (m : t) : t :=
  {| tag := tag m; currentTime := time; duration := duration m;
     paused := paused m; ended := ended m; readyState := readyState m;
     currentSrc := currentSrc m |}.
End MediaElement.

(** A DOM element that is not a media element: a [<div>], an element of the
    plain [HTMLElement] class, or an element of another class. *)
Inductive Element := HTMLDivElement | HTMLElement | HTMLCanvasElement.

(** An [AudioBuffer], the already decoded audio [load] accepts: the spec's
    [DecodedAudio] (sample rate, channel count, duration, samples of each
    channel). *)
Module AudioBuffer.
Record t := {
  sampleRate : number;
  numberOfChannels : nat;
  duration : number;
  channels : list (list number);
}.
End AudioBuffer.

#[warnings="-register-all"]
Inductive value :=
  | VUndefined
  | VNull
  | VBoolean (b : bool)
  | VNumber (n : number)
  | VString (s : string)
  | VFunction
  | VArray
  | VElement (e : Element)
  | VMedia (m : MediaElement.t)
  | VAudioBuffer (a : AudioBuffer.t)
  | VUint8Array (bytes : list Byte.byte)
  | VObject (props : gmap string value).

(** [o[key]]: a missing property reads as [undefined]. *)
Definition get (key : string) (o : gmap string value) : value :=
  default VUndefined (o !! key).

(** Truthiness, as [&&], [?:] and [if] test it. *)
Definition truthy (v : value) : bool :=
  match v with
  | VUndefined | VNull => false
  | VBoolean b => b
  | VNumber n => negb (num_strict_eq n (num_Z 0)) && negb (match n with NaN => true | _ => false end)
  | VString s => negb (bool_decide (s = ""))
  | _ => true
  end.

(** Modelled from the spec: [kindOf] of the [option-validator] package, which
    is not among the sources. It names the kind of a value in lower case; the
    scheme below spells the kinds it accepts in the same way. *)
Definition kindOf (v : value) : string :=
  match v with
  | VUndefined => "undefined"
  | VNull => "null"
  | VBoolean _ => "boolean"
  | VNumber _ => "number"
  | VString _ => "string"
  | VFunction => "function"
  | VArray => "array"
  | VElement HTMLDivElement => "htmldivelement"
  | VElement HTMLElement => "htmlelement"
  | VElement HTMLCanvasElement => "htmlcanvaselement"
  | VMedia m =>
      match MediaElement.tag m with
      | MediaElement.HTMLVideoElement => "htmlvideoelement"
      | MediaElement.HTMLAudioElement => "htmlaudioelement"
      end
  | VAudioBuffer _ => "audiobuffer"
  | VUint8Array _ => "uint8array"
  | VObject _ => "object"
  end.

(** [typeof v] *)
Definition typeof (v : value) : string :=
  match v with
  | VUndefined => "undefined"
  | VBoolean _ => "boolean"
  | VNumber _ => "number"
  | VString _ => "string"
  | VFunction => "function"
  | _ => "object"
  end.

(** [target && typeof target.getChannelData === 'function'] *)
Definition has_getChannelData (target : value) : bool :=
  match target with
  | VAudioBuffer _ => true
  | VObject props => match props !! "getChannelData" with Some VFunction => true | _ => false end
  | _ => false
  end.

(** [target && target.buffer] *)
Definition has_buffer (target : value) : bool :=
  match target with
  | VUint8Array _ => true
  | VObject props => truthy (get "buffer" props)
  | _ => false
  end.

(** [String.prototype.trim], on the white space of the ASCII range. *)
Fixpoint trimStart (s : string) : string :=
  match s with
  | String c s' => if Ascii.is_space c then trimStart s' else s
  | EmptyString => s
  end.

Definition trim (s : string) : string :=
  String.rev (trimStart (String.rev (trimStart s))).

(** ** Errors *)

(** The errors the class raises, one constructor for each [throw] site. *)
Inductive Error :=
  (** 'setOptions expects to receive object as a parameter.' *)
  | SetOptionsExpectsObject
  (** '${name} expects to receive number as a parameter, but got ${type}.' *)
  | ExpectsNumber (name type : string)
  (** ''options.${name}' expect a(n integer) number that >= ${min} and <= ${max}, but got ${value}.' *)
  | ExpectsRange (name : string) (isInteger : bool) (min max value : number)
  (** the validator: the kind of [option[key]] is none of those its scheme lists *)
  | SchemeType (key scheme kind : string)
  (** the validator: a scheme function returned something else than [true] *)
  | SchemeValidator (key : string)
  (** 'The load target is not a string. If you are loading a mediaElement, ...' *)
  | LoadTargetNotString
  (** 'seek expects to receive number as a parameter.' *)
  | SeekExpectsNumber
  (** the decoder: no decoded audio, or no such channel in it *)
  | DecoderChannel (channel : value)
  (** a method call on a component that has not been constructed *)
  | NotConstructed (component : string).

(** Modelled from the spec: the error taxonomy of its section 7. The sources
    raise every error through [errorHandle] of [./utils] and through the
    validator, neither of which is among them; the class of an error is the
    one the spec gives to the operation that raises it. Load and decode
    errors are delivered through the event bus, never thrown; the argument
    check of [seek] and a call on a missing component are outside of the
    taxonomy. *)
Inductive ErrorClass :=
  | ConfigError
  | LoadError
  | DecodeError
  | InvalidChannelError
  | InvalidTargetError.

(** Modelled from the spec: the class of each error, after section 7. *)
Definition taxonomy (e : Error) : option ErrorClass :=
  match e with
  | SetOptionsExpectsObject | ExpectsNumber _ _ | ExpectsRange _ _ _ _ _
  | SchemeType _ _ _ | SchemeValidator _ => Some ConfigError
  | LoadTargetNotString => Some InvalidTargetError
  | DecoderChannel _ => Some InvalidChannelError
  | SeekExpectsNumber | NotConstructed _ => None
  end.

(** ** The monad of methods *)

Inductive Outcome (A : Type) :=
  | Return (a : A)
  | Throw (e : Error).
Arguments Return {A} a.
Arguments Throw {A} e.

Definition M (S A : Type) : Type := S -> Outcome A * S.

Definition throw {S A} (e : Error) : M S A := λ s, (Throw e, s).
Definition getState {S} : M S S := λ s, (Return s, s).
Definition modify {S} (f : S -> S) : M S unit := λ s, (Return (), f s).

#[global] Instance M_ret {S} : MRet (M S) := λ A a s, (Return a, s).
#[global] Instance M_bind {S} : MBind (M S) := λ A B f m s,
  match m s with
  | (Return a, s') => f a s'
  | (Throw e, s') => (Throw e, s')
  end.

(** Modelled from the spec: [errorHandle] of [./utils], which is not among
    the sources: it raises the error, synchronously, unless the condition
    holds. *)
Definition errorHandle {S} (condition : bool) (e : Error) : M S unit :=
  if condition then mret () else throw e.

(** ** The option validator *)

(** The scheme of one option: the kinds it accepts, separated by [|], or a
    function of the value and its kind. *)
Inductive Scheme (S : Type) :=
  | TypeScheme (kinds : string)
  | FunctionScheme (f : value -> string -> M S bool).
Arguments TypeScheme {S} kinds.
Arguments FunctionScheme {S} f.

(** ["a|b|c"] is [["a"; "b"; "c"]]. *)
Fixpoint kinds_of (scheme : string) : list string :=
  match scheme with
  | EmptyString => [""]
  | String c rest =>
      if bool_decide (c = "|"%char) then "" :: kinds_of rest
      else match kinds_of rest with
           | k :: ks => String c k :: ks
           | [] => [String c ""]
           end
  end.

(** Modelled from the spec: the validator of the [option-validator] package,
    which is not among the sources. Every option is validated when it is
    assigned, against the scheme of its key and in the order of the scheme;
    the first option that fails raises the error, and an option object that
    passes is returned as it is. A type scheme accepts the kinds it lists; a
    function scheme is called with the value and its kind, and has to return
    [true]. *)
Definition check {S} (key : string) (scheme : Scheme S) (v : value) : M S unit :=
  match scheme with
  | TypeScheme kinds =>
      if bool_decide (kindOf v ∈ kinds_of kinds) then mret ()
      else throw (SchemeType key kinds (kindOf v))
  | FunctionScheme f =>
      result ← f v (kindOf v);
      if result : bool then mret () else throw (SchemeValidator key)
  end.

(** Modelled from the spec: the validator, over the keys of the scheme. *)
Fixpoint validate {S} (option : gmap string value)
    (scheme : list (string * Scheme S)) : M S unit :=
  match scheme with
  | [] => mret ()
  | (key, sch) :: rest => check key sch (get key option) ;; validate option rest
  end.

(** Modelled from the spec: the validator, as the class calls it; the option
    object that passes is the result. *)
Definition validator {S} (option : gmap string value)
    (scheme : list (string * Scheme S)) : M S (gmap string value) :=
  validate option scheme ;; mret option.

(** ** Arrays: what [destroy] uses of them *)

(** [array.indexOf(x)]: the first index of [x], or [-1]. *)
Fixpoint indexOf (x : nat) (array : list nat) : Z :=
  match array with
  | [] => -1
  | y :: rest =>
      if bool_decide (y = x) then 0
      else match indexOf x rest with
           | -1 => -1
           | k => k + 1
           end
  end.

(** [array.splice(start, deleteCount)]: a negative [start] counts from the
    end of the array; the elements removed are those that exist from there. *)
Definition splice (start : Z) (deleteCount : nat) (array : list nat) : list nat :=
  let len := Z.of_nat (length array) in
  let actualStart :=
    Z.to_nat (if start <? 0 then Z.max (len + start) 0 else Z.min start len) in
  take actualStart array ++ drop (actualStart + deleteCount) array.

(** ** The decoder *)

Module Decoder.
(** Modelled from the spec: the state of the [Decoder] of [./decoder], which
    is not among the sources, after the state machine of the spec's section
    4.3. It holds the decoded audio and the peak table of the active channel
    only. *)
Inductive t :=
  | Empty
  | Decoding
  | Ready (audio : AudioBuffer.t) (peaks : list (number * number))
  | Error.

(** Modelled from the spec: the samples of channel [index] of the decoded
    audio, none when [index] addresses no channel. *)
Definition samples (audio : AudioBuffer.t) (index : number) : list number :=
  match index with
  | Fin q =>
      if Number_isInteger index && num_le (num_Z 0) index
      then default [] (AudioBuffer.channels audio !! Z.to_nat (Qnum (this q)))
      else []
  | _ => []
  end.
End Decoder.

(** ** The environment: [window] and [document] *)
Record Environment := {
  devicePixelRatio : number;
  querySelector : string -> value;
}.

Section WFPlayer.

(** The components of [./events], [./template], [./drawer], [./controller]
    and [./loader] are collaborators behind their methods: each has a state
    of its own, which only its own methods change. *)
Variables Events Template Drawer Controller Loader : Type.
Variable env : Environment.

(** The fields of an instance. A component is [None] until the constructor
    has built it. *)
Record Instance := {
  _currentTime : number;
  isDestroy : bool;
  options : gmap string value;
  events : option Events;
  template : option Template;
  decoder : option Decoder.t;
  drawer : option Drawer;
  controller : option Controller;
  loader : option Loader;
  id : option nat;
}.

(** What a method runs in: the instance it is called on ([this]), the two
    module-level variables ([let id] and [const instances], the registry,
    which holds each instance by its identity: the [id] the constructor
    gave it), the events emitted so far, oldest first. *)
Record World := {
  self : Instance;
  module_id : nat;
  instances : list nat;
  emitted : list (string * value);
}.

(** Assignments to the fields. *)
Definition set__currentTime (x : number) (i : Instance) : Instance :=
  {| _currentTime := x; isDestroy := isDestroy i; options := options i;
     events := events i; template := template i; decoder := decoder i;
     drawer := drawer i; controller := controller i; loader := loader i;
     id := id i |}.
Definition set_isDestroy (x : bool) (i : Instance) : Instance :=
  {| _currentTime := _currentTime i; isDestroy := x; options := options i;
     events := events i; template := template i; decoder := decoder i;
     drawer := drawer i; controller := controller i; loader := loader i;
     id := id i |}.
Definition set_options (x : gmap string value) (i : Instance) : Instance :=
  {| _currentTime := _currentTime i; isDestroy := isDestroy i; options := x;
     events := events i; template := template i; decoder := decoder i;
     drawer := drawer i; controller := controller i; loader := loader i;
     id := id i |}.
Definition set_events (x : option Events) (i : Instance) : Instance :=
  {| _currentTime := _currentTime i; isDestroy := isDestroy i; options := options i;
     events := x; template := template i; decoder := decoder i;
     drawer := drawer i; controller := controller i; loader := loader i;
     id := id i |}.
Definition set_template (x : option Template) (i : Instance) : Instance :=
  {| _currentTime := _currentTime i; isDestroy := isDestroy i; options := options i;
     events := events i; template := x; decoder := decoder i;
     drawer := drawer i; controller := controller i; loader := loader i;
     id := id i |}.
Definition set_decoder (x : option Decoder.t) (i : Instance) : Instance :=
  {| _currentTime := _currentTime i; isDestroy := isDestroy i; options := options i;
     events := events i; template := template i; decoder := x;
     drawer := drawer i; controller := controller i; loader := loader i;
     id := id i |}.
Definition set_drawer (x : option Drawer) (i : Instance) : Instance :=
  {| _currentTime := _currentTime i; isDestroy := isDestroy i; options := options i;
     events := events i; template := template i; decoder := decoder i;
     drawer := x; controller := controller i; loader := loader i;
     id := id i |}.
Definition set_controller (x : option Controller) (i : Instance) : Instance :=
  {| _currentTime := _currentTime i; isDestroy := isDestroy i; options := options i;
     events := events i; template := template i; decoder := decoder i;
     drawer := drawer i; controller := x; loader := loader i;
     id := id i |}.
Definition set_loader (x : option Loader) (i : Instance) : Instance :=
  {| _currentTime := _currentTime i; isDestroy := isDestroy i; options := options i;
     events := events i; template := template i; decoder := decoder i;
     drawer := drawer i; controller := controller i; loader := x;
     id := id i |}.
Definition set_id (x : option nat) (i : Instance) : Instance :=
  {| _currentTime := _currentTime i; isDestroy := isDestroy i; options := options i;
     events := events i; template := template i; decoder := decoder i;
     drawer := drawer i; controller := controller i; loader := loader i;
     id := x |}.

Definition on_self (f : Instance -> Instance) (w : World) : World :=
  {| self := f (self w); module_id := module_id w;
     instances := instances w; emitted := emitted w |}.
Definition set_module_id (x : nat) (w : World) : World :=
  {| self := self w; module_id := x;
     instances := instances w; emitted := emitted w |}.
Definition set_instances (x : list nat) (w : World) : World :=
  {| self := self w; module_id := module_id w;
     instances := x; emitted := emitted w |}.
Definition set_emitted (x : list (string * value)) (w : World) : World :=
  {| self := self w; module_id := module_id w;
     instances := instances w; emitted := x |}.

(** The methods of the collaborators: each is given the instance (the
    component holds a reference to it) and returns the new state of the
    component. [reduce] is the peak reduction of the decoder. *)
Record Collaborators := {
  new_Events : Instance -> Events;
  events_destroy : Instance -> Events -> Events;
  new_Template : Instance -> Template;
  template_update : Instance -> Template -> Template;
  template_exportImage : Instance -> Template -> Template;
  template_destroy : Instance -> Template -> Template;
  new_Drawer : Instance -> Drawer;
  drawer_update : Instance -> Drawer -> Drawer;
  drawer_destroy : Instance -> Drawer -> Drawer;
  new_Controller : Instance -> Controller;
  controller_init : Instance -> Controller -> Controller;
  controller_destroy : Instance -> Controller -> Controller;
  new_Loader : Instance -> Loader;
  loader_load : Instance -> string -> Loader -> Loader;
  loader_destroy : Instance -> Loader -> Loader;
  reduce : list number -> list (number * number);
}.
Variable collab : Collaborators.

(** [this.component.method()]: a [TypeError] when the component is still
    undefined. *)
Definition call {X} (name : string) (field : Instance -> option X)
    (assign : option X -> Instance -> Instance)
    (method : Instance -> X -> X) : M World unit := λ w,
  match field (self w) with
  | Some x => (Return (), on_self (assign (Some (method (self w) x))) w)
  | None => (Throw (NotConstructed name), w)
  end.

(** [this.emit(name, argument)] of the [Emitter] base class: the event is
    handed to the subscribers; the instance itself is not changed. *)
Definition emit (name : string) (argument : value) : M World unit :=
  modify (λ w, set_emitted (emitted w ++ [(name, argument)]) w).
(** *** Static getters *)

(** [WFPlayer.default] *)
Definition WFPlayer_default : gmap string value :=
  list_to_map [
    ("container", VString "#waveform");
    ("mediaElement", VNull);
    ("useWorker", VBoolean true);
    ("wave", VBoolean true);
    ("waveColor", VString "rgba(255, 255, 255, 0.1)");
    ("backgroundColor", VString "rgb(28, 32, 34)");
    ("paddingColor", VString "rgba(255, 255, 255, 0.05)");
    ("cursor", VBoolean true);
    ("cursorColor", VString "#ff0000");
    ("progress", VBoolean true);
    ("progressColor", VString "rgba(255, 255, 255, 0.5)");
    ("grid", VBoolean true);
    ("gridColor", VString "rgba(255, 255, 255, 0.05)");
    ("ruler", VBoolean true);
    ("rulerColor", VString "rgba(255, 255, 255, 0.5)");
    ("rulerAtTop", VBoolean true);
    ("scrollable", VBoolean false);
    ("refreshDelay", VNumber (num_Z 50));
    ("channel", VNumber (num_Z 0));
    ("duration", VNumber (num_Z 10));
    ("padding", VNumber (num_Z 5));
    ("waveScale", VNumber (num_Q (8 # 10)));
    ("pixelRatio", VNumber (Math_ceil (devicePixelRatio env)))
  ].

(** [checkNum] of [WFPlayer.scheme]. The validator calls it with the kind of
    the value as [type], so the range is only ever tested on a number. *)
Definition checkNum {S} (name : string) (min max : number) (isInteger : bool)
    (value : value) (type : string) : M S bool :=
  errorHandle (bool_decide (type = "number")) (ExpectsNumber name type) ;;
  match value with
  | VNumber n =>
      errorHandle
        (num_ge n min && num_le n max
         && (if isInteger then Number_isInteger n else true))
        (ExpectsRange name isInteger min max n) ;;
      mret true
  | _ => throw (ExpectsNumber name (kindOf value))
  end.

(** [WFPlayer.scheme] *)
Definition WFPlayer_scheme {S} : list (string * Scheme S) := [
  ("container", TypeScheme "htmlelement|htmldivelement");
  ("mediaElement", TypeScheme "null|htmlvideoelement|htmlaudioelement");
  ("useWorker", TypeScheme "boolean");
  ("wave", TypeScheme "boolean");
  ("waveColor", TypeScheme "string");
  ("backgroundColor", TypeScheme "string");
  ("paddingColor", TypeScheme "string");
  ("cursor", TypeScheme "boolean");
  ("cursorColor", TypeScheme "string");
  ("progress", TypeScheme "boolean");
  ("progressColor", TypeScheme "string");
  ("grid", TypeScheme "boolean");
  ("gridColor", TypeScheme "string");
  ("ruler", TypeScheme "boolean");
  ("rulerColor", TypeScheme "string");
  ("rulerAtTop", TypeScheme "boolean");
  ("scrollable", TypeScheme "boolean");
  ("refreshDelay", FunctionScheme (checkNum "refreshDelay" (num_Z 16) (num_Z 1000) true));
  ("channel", FunctionScheme (checkNum "channel" (num_Z 0) (num_Z 5) true));
  ("duration", FunctionScheme (checkNum "duration" (num_Z 1) (num_Z 100) true));
  ("padding", FunctionScheme (checkNum "padding" (num_Z 1) (num_Z 100) true));
  ("waveScale", FunctionScheme (checkNum "waveScale" (num_Q (1 # 10)) (num_Z 10) false));
  ("pixelRatio", FunctionScheme (checkNum "pixelRatio" (num_Z 1) (num_Z 10) false))
].

(** *** Getters *)

(** [this.options.mediaElement], when it is a media element. The scheme
    admits nothing but [null] and the two media element classes for this
    option, and [load] assigns it a media element. *)
Definition mediaElement (this : Instance) : option MediaElement.t :=
  match options this !! "mediaElement" with
  | Some (VMedia m) => Some m
  | _ => None
  end.

(** [get currentTime()] *)
Definition currentTime (this : Instance) : number :=
  match mediaElement this with
  | Some m => MediaElement.currentTime m
  | None => _currentTime this
  end.

(** [get duration()] *)
Definition duration (this : Instance) : number :=
  match mediaElement this with
  | Some m => MediaElement.duration m
  | None => Infinity
  end.

(** [get playing()] *)
Definition playing (this : Instance) : bool :=
  match mediaElement this with
  | Some m =>
      num_gt (MediaElement.currentTime m) (num_Z 0)
      && negb (MediaElement.paused m)
      && negb (MediaElement.ended m)
      && Nat.ltb 2 (MediaElement.readyState m)
  | None => false
  end.

(** *** Methods

    Every method of the class ends in [return this]; here a method returns
    nothing and leaves the instance in the state. *)

(** [update()] *)
Definition update : M World unit :=
  w ← getState;
  match template (self w), drawer (self w) with
  | Some _, Some _ =>
      call "template" template set_template (template_update collab) ;;
      call "drawer" drawer set_drawer (drawer_update collab)
  | _, _ => mret ()
  end.

(** [setOptions(options = {})]. The selectors are looked up in the argument
    itself, which is the caller's object; [this.options] is assigned once,
    with what the validator returns. *)
Definition setOptions (opts : value) : M World unit :=
  let opts := match opts with VUndefined => VObject ∅ | _ => opts end in
  errorHandle (bool_decide (kindOf opts = "object")) SetOptionsExpectsObject ;;
  match opts with
  | VObject o =>
      let o :=
        match get "container" o with
        | VString selector => <["container" := querySelector env selector]> o
        | _ => o
        end in
      let o :=
        match get "mediaElement" o with
        | VString selector => <["mediaElement" := querySelector env selector]> o
        | _ => o
        end in
      w ← getState;
      validated ← validator (o ∪ options (self w) ∪ WFPlayer_default) WFPlayer_scheme;
      modify (on_self (set_options validated)) ;;
      update
  | _ => mret ()
  end.

(** *** The decoder's methods

    None of them is among the sources. They follow the spec: section 4.3 for
    the transitions and the notifications, section 4.1 for what an already
    decoded buffer and a byte stream do, section 3 for the channel of a
    decode being clamped to the channels there are. The peak reduction is the
    [reduce] of the collaborators. *)

(** Modelled from the spec: a transition of the decoder. *)
Definition decoder_set (d : Decoder.t) : M World unit :=
  call "decoder" decoder set_decoder (λ _ _, d).

(** Modelled from the spec: the channel of [options], clamped to the channels
    of the audio. *)
Definition configured_channel (this : Instance) (audio : AudioBuffer.t) : number :=
  match get "channel" (options this) with
  | VNumber c => Math_min c (num_Z (Z.of_nat (AudioBuffer.numberOfChannels audio) - 1))
  | _ => num_Z 0
  end.

(** Modelled from the spec: [decoder.decodeSuccess(audiobuffer)]. A buffer
    without channel, or a target that only looks like a buffer, is a decode
    failure, which is emitted and not thrown. *)
Definition decoder_decodeSuccess (target : value) : M World unit :=
  w ← getState;
  match target with
  | VAudioBuffer audio =>
      if bool_decide (AudioBuffer.numberOfChannels audio = 0%nat)
      then decoder_set Decoder.Error ;; emit "decodeError" target
      else
        decoder_set
          (Decoder.Ready audio
             (reduce collab (Decoder.samples audio (configured_channel (self w) audio)))) ;;
        emit "decoded" target
  | _ => decoder_set Decoder.Error ;; emit "decodeError" target
  end.

(** Modelled from the spec: [decoder.decodeAudioData(bytes)]. The decoding is
    started; its result arrives later, outside of the call. *)
Definition decoder_decodeAudioData (target : value) : M World unit :=
  decoder_set Decoder.Decoding.

(** Modelled from the spec: [decoder.changeChannel(index)]. It requires
    decoded audio and an index below its channel count, and fails with an
    invalid channel error otherwise; the peaks are recomputed from the audio
    it holds. *)
Definition decoder_changeChannel (index : value) : M World unit :=
  w ← getState;
  match decoder (self w), index with
  | None, _ => throw (NotConstructed "decoder")
  | Some (Decoder.Ready audio _), VNumber i =>
      errorHandle
        (num_lt i (num_Z (Z.of_nat (AudioBuffer.numberOfChannels audio))))
        (DecoderChannel index) ;;
      decoder_set (Decoder.Ready audio (reduce collab (Decoder.samples audio i))) ;;
      emit "updated" index
  | Some _, _ => throw (DecoderChannel index)
  end.

(** Modelled from the spec: [decoder.destroy()]. *)
Definition decoder_destroy : M World unit :=
  decoder_set Decoder.Empty.

(** *** Methods, continued *)

(** [load(target)] *)
Definition load (target : value) : M World unit :=
  emit "load" target ;;
  if has_getChannelData target then
    decoder_decodeSuccess target ;;
    call "controller" controller set_controller (controller_init collab)
  else if has_buffer target then
    decoder_decodeAudioData target ;;
    call "controller" controller set_controller (controller_init collab)
  else
    target ←
      match target with
      | VMedia m =>
          modify (on_self (λ this,
            set_options (<["mediaElement" := target]> (options this)) this)) ;;
          mret (VString (MediaElement.currentSrc m))
      | _ => mret target
      end;
    errorHandle
      (match target with
       | VString url => negb (bool_decide (trim url = ""))
       | _ => false
       end)
      LoadTargetNotString ;;
    match target with
    | VString url =>
        call "loader" loader set_loader (λ this, loader_load collab this url) ;;
        call "controller" controller set_controller (controller_init collab)
    | _ => mret ()
    end.

(** [seek(second)] *)
Definition seek (second : value) : M World unit :=
  errorHandle (bool_decide (typeof second = "number")) SeekExpectsNumber ;;
  match second with
  | VNumber second =>
      modify (on_self (λ this,
        set__currentTime (clamp second (num_Z 0) (duration this)) this)) ;;
      w ← getState;
      match mediaElement (self w) with
      | Some m =>
          if negb (num_strict_eq (MediaElement.currentTime m) (_currentTime (self w)))
          then
            modify (on_self (λ this,
              set_options
                (<["mediaElement" :=
                     VMedia (MediaElement.set_currentTime (_currentTime this) m)]>
                   (options this))
                this))
          else mret ()
      | None => mret ()
      end ;;
      update
  | _ => mret ()
  end.

(** [changeChannel(channel)] *)
Definition changeChannel (channel : value) : M World unit :=
  decoder_changeChannel channel ;;
  setOptions (VObject {[ "channel" := channel ]}) ;;
  update.

(** [exportImage()] *)
Definition exportImage : M World unit :=
  call "template" template set_template (template_exportImage collab).

(** [reset()] *)
Definition reset : M World unit :=
  decoder_destroy.

(** [destroy()] *)
Definition destroy : M World unit :=
  modify (on_self (set_isDestroy true)) ;;
  call "events" events set_events (events_destroy collab) ;;
  call "template" template set_template (template_destroy collab) ;;
  call "controller" controller set_controller (controller_destroy collab) ;;
  decoder_destroy ;;
  call "loader" loader set_loader (loader_destroy collab) ;;
  call "drawer" drawer set_drawer (drawer_destroy collab) ;;
  modify (λ w,
    let index := match id (self w) with
                 | Some this => indexOf this (instances w)
                 | None => -1
                 end in
    set_instances (splice index 1 (instances w)) w).

(** [new WFPlayer(options)]: the constructor runs on a new object. *)
Definition constructor (opts : value) : M World unit :=
  modify (on_self (λ _,
    {| _currentTime := num_Z 0; isDestroy := false; options := ∅;
       events := None; template := None; decoder := None; drawer := None;
       controller := None; loader := None; id := None |})) ;;
  setOptions opts ;;
  modify (on_self (λ this, set_events (Some (new_Events collab this)) this)) ;;
  modify (on_self (λ this, set_template (Some (new_Template collab this)) this)) ;;
  modify (on_self (set_decoder (Some Decoder.Empty))) ;;
  modify (on_self (λ this, set_drawer (Some (new_Drawer collab this)) this)) ;;
  modify (on_self (λ this, set_controller (Some (new_Controller collab this)) this)) ;;
  modify (on_self (λ this, set_loader (Some (new_Loader collab this)) this)) ;;
  update ;;
  modify (λ w, set_module_id (S (module_id w)) w) ;;
  modify (λ w, on_self (set_id (Some (module_id w))) w) ;;
  modify (λ w, set_instances (instances w ++ [module_id w]) w).
End WFPlayer.

Arguments Build_Instance {_ _ _ _ _}.
Arguments _currentTime {_ _ _ _ _} i.
Arguments isDestroy {_ _ _ _ _} i.
Arguments options {_ _ _ _ _} i.
Arguments events {_ _ _ _ _} i.
Arguments template {_ _ _ _ _} i.
Arguments decoder {_ _ _ _ _} i.
Arguments drawer {_ _ _ _ _} i.
Arguments controller {_ _ _ _ _} i.
Arguments loader {_ _ _ _ _} i.
Arguments id {_ _ _ _ _} i.
Arguments Build_World {_ _ _ _ _}.
Arguments self {_ _ _ _ _} w.
Arguments module_id {_ _ _ _ _} w.
Arguments instances {_ _ _ _ _} w.
Arguments emitted {_ _ _ _ _} w.
Arguments set__currentTime {_ _ _ _ _} x i.
Arguments set_isDestroy {_ _ _ _ _} x i.
Arguments set_options {_ _ _ _ _} x i.
Arguments set_events {_ _ _ _ _} x i.
Arguments set_template {_ _ _ _ _} x i.
Arguments set_decoder {_ _ _ _ _} x i.
Arguments set_drawer {_ _ _ _ _} x i.
Arguments set_controller {_ _ _ _ _} x i.
Arguments set_loader {_ _ _ _ _} x i.
Arguments set_id {_ _ _ _ _} x i.
Arguments on_self {_ _ _ _ _} f w.
Arguments set_module_id {_ _ _ _ _} x w.
Arguments set_instances {_ _ _ _ _} x w.
Arguments set_emitted {_ _ _ _ _} x w.
Arguments Build_Collaborators {_ _ _ _ _}.
Arguments call {_ _ _ _ _ X} name field assign method _.
Arguments emit {_ _ _ _ _} name argument _.
Arguments mediaElement {_ _ _ _ _} this.
Arguments currentTime {_ _ _ _ _} this.
Arguments duration {_ _ _ _ _} this.
Arguments playing {_ _ _ _ _} this.
Arguments update {_ _ _ _ _} collab _.
Arguments setOptions {_ _ _ _ _} env collab opts _.
Arguments decoder_set {_ _ _ _ _} d _.
Arguments configured_channel {_ _ _ _ _} this audio.
Arguments decoder_decodeSuccess {_ _ _ _ _} collab target _.
Arguments decoder_decodeAudioData {_ _ _ _ _} target _.
Arguments decoder_changeChannel {_ _ _ _ _} collab index _.
Arguments decoder_destroy {_ _ _ _ _} _.
Arguments load {_ _ _ _ _} collab target _.
Arguments seek {_ _ _ _ _} collab second _.
Arguments changeChannel {_ _ _ _ _} env collab channel _.
Arguments exportImage {_ _ _ _ _} collab _.
Arguments reset {_ _ _ _ _} _.
Arguments destroy {_ _ _ _ _} collab _.
Arguments constructor {_ _ _ _ _} env collab opts _.

(** ** The documented options

    The numeric options as the spec documents them (section 6): the bounds,
    and whether the option has to be an integer. *)
Definition documented_ranges : list (string * (number * number * bool)) := [
  ("refreshDelay", (num_Z 16, num_Z 1000, true));
  ("channel", (num_Z 0, num_Z 5, true));
  ("duration", (num_Z 1, num_Z 100, true));
  ("padding", (num_Z 1, num_Z 100, true));
  ("waveScale", (num_Q (1 # 10), num_Z 10, false));
  ("pixelRatio", (num_Z 1, num_Z 10, false))
].

(** A value is a number of the documented range and kind. *)
Definition in_documented_range (min max : number) (isInteger : bool) (v : value) : Prop :=
  ∃ n, v = VNumber n
       ∧ num_le min n = true ∧ num_le n max = true
       ∧ (isInteger = true → Number_isInteger n = true).

(** The options of the scheme that are given by their kinds. *)
Definition type_schemes : list (string * string) :=
  omap (λ entry : string * Scheme (),
          match entry.2 with
          | TypeScheme kinds => Some (entry.1, kinds)
          | FunctionScheme _ => None
          end)
       WFPlayer_scheme.

(** ** A small configuration to run the class on

    Collaborators without state, a document with one [<div id="waveform">],
    and a device pixel ratio of 1.5. *)
Definition idle : Collaborators () () () () () := {|
  new_Events := λ _, ();
  events_destroy := λ _ x, x;
  new_Template := λ _, ();
  template_update := λ _ x, x;
  template_exportImage := λ _ x, x;
  template_destroy := λ _ x, x;
  new_Drawer := λ _, ();
  drawer_update := λ _ x, x;
  drawer_destroy := λ _ x, x;
  new_Controller := λ _, ();
  controller_init := λ _ x, x;
  controller_destroy := λ _ x, x;
  new_Loader := λ _, ();
  loader_load := λ _ _ x, x;
  loader_destroy := λ _ x, x;
  reduce := λ _, [];
|}.

Definition page : Environment := {|
  devicePixelRatio := num_Q (3 # 2);
  querySelector := λ selector,
    if bool_decide (selector = "#waveform") then VElement HTMLDivElement else VNull;
|}.

(** Before any instance exists. *)
Definition start : World () () () () () := {|
  self := {| _currentTime := NaN; isDestroy := false; options := ∅;
             events := None; template := None; decoder := None; drawer := None;
             controller := None; loader := None; id := None |};
  module_id := 0;
  instances := [];
  emitted := [];
|}.

(** [a = new WFPlayer({ container: '#waveform' })], then
    [b = new WFPlayer({ container: '#waveform' })]. *)
Definition after_a : World () () () () () :=
  (constructor page idle (VObject {[ "container" := VString "#waveform" ]}) start).2.
Definition after_b : World () () () () () :=
  (constructor page idle (VObject {[ "container" := VString "#waveform" ]}) after_a).2.

(** The world in which the next method is called on [a], after both
    constructions. *)
Definition on_a : World () () () () () :=
  on_self (λ _, self after_a) after_b.


Definition video_playing : MediaElement.t := {|
  MediaElement.tag := MediaElement.HTMLVideoElement;
  MediaElement.currentTime := num_Z 3;
  MediaElement.duration := num_Z 60;
  MediaElement.paused := false;
  MediaElement.ended := false;
  MediaElement.readyState := 4;
  MediaElement.currentSrc := "movie.mp4";
|}.

(** [a] with the playing video attached. *)
Definition on_a_with_video : World () () () () () :=
  on_self (λ this, set_options (<["mediaElement" := VMedia video_playing]> (options this)) this) on_a.

(** [a] after a buffer of two channels has been decoded. *)
Definition two_channels : AudioBuffer.t := {|
  AudioBuffer.sampleRate := num_Z 8;
  AudioBuffer.numberOfChannels := 2;
  AudioBuffer.duration := num_Z 4;
  AudioBuffer.channels := [[num_Z 0; num_Z 1]; [num_Z 1; num_Z 0]];
|}.

Definition on_a_decoded : World () () () () () :=
  (load idle (VAudioBuffer two_channels) on_a).2.

(** [a] after [a.destroy()]. *)
Definition a_destroyed : World () () () () () :=
  (destroy idle on_a).2.

(** [a] after [a.setOptions({ duration: 20 })], and after
    [a.setOptions({ mediaElement: video })]. *)
Definition a_duration_20 : World () () () () () :=
  (setOptions page idle (VObject {[ "duration" := VNumber (num_Z 20) ]}) on_a).2.
Definition a_video_attached : World () () () () () :=
  (setOptions page idle (VObject {[ "mediaElement" := VMedia video_playing ]}) on_a).2.

(** ** The scheme as rules

    What the validator decides for one entry of [WFPlayer.scheme], as a
    function of the option value: an entry is either a list of kinds, or the
    range test of [checkNum] called with the name of its key. *)
Inductive Rule :=
  | Kinds (kinds : string)
  | Range (min max : number) (isInteger : bool).

Definition rule_entry {S} (entry : string * Rule) : string * Scheme S :=
  match entry with
  | (key, Kinds kinds) => (key, TypeScheme kinds)
  | (key, Range min max isInteger) =>
      (key, FunctionScheme (checkNum key min max isInteger))
  end.

Definition range_ok (min max : number) (isInteger : bool) (v : value) : bool :=
  match v with
  | VNumber n =>
      num_ge n min && num_le n max
      && (if isInteger then Number_isInteger n else true)
  | _ => false
  end.

Definition rule_ok (r : Rule) (v : value) : bool :=
  match r with
  | Kinds kinds => bool_decide (kindOf v ∈ kinds_of kinds)
  | Range min max isInteger => range_ok min max isInteger v
  end.

Definition rule_error (key : string) (r : Rule) (v : value) : Error :=
  match r, v with
  | Kinds kinds, _ => SchemeType key kinds (kindOf v)
  | Range min max isInteger, VNumber n => ExpectsRange key isInteger min max n
  | Range _ _ _, _ => ExpectsNumber key (kindOf v)
  end.

(** The error of the first rule, in the order of the scheme, that the option
    object does not pass. *)
Fixpoint first_error (opts : gmap string value) (rules : list (string * Rule))
    : option Error :=
  match rules with
  | [] => None
  | (key, r) :: rest =>
      if rule_ok r (get key opts) then first_error opts rest
      else Some (rule_error key r (get key opts))
  end.

(** The kinds of the scheme, followed by the documented ranges. *)
Definition WFPlayer_rules : list (string * Rule) :=
  ((λ entry, (entry.1, Kinds entry.2)) <$> type_schemes)
  ++ ((λ entry, (entry.1, Range entry.2.1.1 entry.2.1.2 entry.2.2))
        <$> documented_ranges).

(** The object [setOptions] validates: the argument, its [container] and
    [mediaElement] looked up in the document when they are selectors, over
    the options of the instance, over the defaults. *)
Definition resolved (env : Environment) (o : gmap string value) : gmap string value :=
  let o :=
    match get "container" o with
    | VString selector => <["container" := querySelector env selector]> o
    | _ => o
    end in
  match get "mediaElement" o with
  | VString selector => <["mediaElement" := querySelector env selector]> o
  | _ => o
  end.

Definition merged (env : Environment) (o this_options : gmap string value)
    : gmap string value :=
  resolved env o ∪ this_options ∪ WFPlayer_default env.


(** The constructor has built every component of the instance. *)
Definition constructed {Events Template Drawer Controller Loader : Type}
    (this : Instance Events Template Drawer Controller Loader) : Prop :=
  is_Some (events this) ∧ is_Some (template this) ∧ is_Some (decoder this)
  ∧ is_Some (drawer this) ∧ is_Some (controller this) ∧ is_Some (loader this).

(** The registry holds no instance twice, and no identity that the counter
    [id] has not reached yet. *)
Definition registry_ok {Events Template Drawer Controller Loader : Type}
    (w : World Events Template Drawer Controller Loader) : Prop :=
  NoDup (instances w) ∧ ∀ k, k ∈ instances w → (k ≤ module_id w)%nat.

(** * Properties *)

(** ** Numbers *)

Lemma num_le_Fin (x y : Qc) : num_le (Fin x) (Fin y) = true ↔ (x <= y)%Qc.
Proof.
  rewrite Qcle_alt. simpl. destruct (x ?= y)%Qc; split; congruence.
Qed.

Lemma num_lt_Fin (x y : Qc) : num_lt (Fin x) (Fin y) = true ↔ (x < y)%Qc.
Proof.
  rewrite Qclt_alt. simpl. destruct (x ?= y)%Qc; split; congruence.
Qed.

Lemma num_strict_eq_true (a b : number) : num_strict_eq a b = true → a = b.
Proof.
  destruct a, b; simpl; try discriminate; try reflexivity.
  intros H. apply bool_decide_eq_true in H. by subst.
Qed.

Lemma num_ge_not_lt (a b : number) : num_ge a b = true → num_lt a b = false.
Proof.
  unfold num_ge. intros Hle.
  destruct (num_lt a b) eqn:Hlt; [|done].
  destruct a as [| | |x], b as [| | |y]; try done.
  apply num_le_Fin in Hle. apply num_lt_Fin in Hlt.
  by apply Qcle_not_lt in Hle.
Qed.

(** ** Arrays *)

Lemma indexOf_absent (x : nat) (array : list nat) :
  x ∉ array → indexOf x array = -1.
Proof.
  induction array as [|y array IH]; [done|].
  intros [Hne Hnotin]%not_elem_of_cons. simpl.
  rewrite bool_decide_eq_false_2 by done. by rewrite IH.
Qed.

(** [splice(-1, 1)] removes the last element. *)
Lemma splice_last (array : list nat) (x : nat) :
  splice (-1) 1 (array ++ [x]) = array.
Proof.
  unfold splice. cbn [Z.ltb Z.compare].
  rewrite length_app. cbn [length].
  replace (Z.to_nat (Z.max (Z.of_nat (length array + 1) + -1) 0))
    with (length array) by lia.
  rewrite take_app_length. rewrite drop_ge; [by rewrite app_nil_r|].
  rewrite length_app. simpl. lia.
Qed.

(** Clamping to [[0, Infinity]] leaves every [s >= 0] as it is. *)
Lemma clamp_below_only (s : number) :
  num_ge s (num_Z 0) = true → clamp s (num_Z 0) Infinity = s.
Proof.
  unfold num_ge, clamp, num_Z. destruct s as [| | |q]; try (simpl; congruence).
  intros Hle. apply num_le_Fin in Hle.
  cbn [Math_max].
  destruct (num_le (Fin q) (Fin (Qc_of_Z 0))) eqn:E.
  - apply num_le_Fin in E. cbn. f_equal. by apply Qcle_antisym.
  - reflexivity.
Qed.

(** [Math.ceil] of a finite number is the least integer that is not below it. *)
Lemma Math_ceil_least (q : Qc) :
  Number_isInteger (Math_ceil (Fin q)) = true
  ∧ num_le (Fin q) (Math_ceil (Fin q)) = true
  ∧ ∀ z : Z, num_le (Fin q) (num_Z z) = true → num_le (Math_ceil (Fin q)) (num_Z z) = true.
Proof.
  split; [by apply bool_decide_eq_true|]. split.
  - apply num_le_Fin. unfold Qcle. simpl. apply Qle_ceiling.
  - intros z Hz. apply num_le_Fin in Hz. apply num_le_Fin.
    unfold Qcle in *. simpl in *. rewrite <- Zle_Qle.
    rewrite <- (Qceiling_Z z). by apply Qceiling_resp_le.
Qed.

(** ** Running computations *)

Lemma run_bind {S A B} (m : M S A) (f : A → M S B) (s : S) :
  (m ≫= f) s
  = match m s with
    | (Return a, s') => f a s'
    | (Throw e, s') => (Throw e, s')
    end.
Proof. reflexivity. Qed.

Lemma run_errorHandle {S} (condition : bool) (e : Error) (s : S) :
  errorHandle condition e s = (if condition then Return () else Throw e, s).
Proof. by destruct condition. Qed.

Section Properties.
Context {Events Template Drawer Controller Loader : Type}.
Variable env : Environment.
Variable collab : Collaborators Events Template Drawer Controller Loader.

Abbreviation Instance := (Instance Events Template Drawer Controller Loader).
Abbreviation World := (World Events Template Drawer Controller Loader).

(** [update] never fails, and assigns no field but [template] and [drawer]. *)
Lemma update_spec (w : World) :
  ∃ t d, update collab w
         = (Return (), on_self (λ this, set_drawer d (set_template t this)) w)
         ∧ (is_Some (template (self w)) ↔ is_Some t)
         ∧ (is_Some (drawer (self w)) ↔ is_Some d).
Proof.
  unfold update. rewrite run_bind. simpl.
  destruct w as [[ct dest opts ev [t|] dec [d|] ctl ld i] mid insts em]; simpl.
  - eexists (Some _), (Some _). split; [reflexivity|]. split; split; eauto.
  - exists (Some t), None. split; [reflexivity|]. split; split; eauto.
  - exists None, (Some d). split; [reflexivity|]. split; split; eauto.
  - exists None, None. split; [reflexivity|]. split; split; eauto.
Qed.
(** Fields that [update] does not assign. *)
Lemma update_keeps (w : World) :
  ∃ w', update collab w = (Return (), w')
        ∧ _currentTime (self w') = _currentTime (self w)
        ∧ isDestroy (self w') = isDestroy (self w)
        ∧ options (self w') = options (self w)
        ∧ decoder (self w') = decoder (self w)
        ∧ id (self w') = id (self w)
        ∧ module_id w' = module_id w
        ∧ instances w' = instances w
        ∧ emitted w' = emitted w.
Proof.
  destruct (update_spec w) as (t & d & -> & _). eexists. split; [reflexivity|].
  by destruct w as [[] ? ? ?].
Qed.

(** ** The playback getters *)

(** For an option the scheme admits, the test [this.options.mediaElement ? :]
    of the getters succeeds exactly when [mediaElement] finds an element. *)
Lemma mediaElement_attached (this : Instance) :
  kindOf (get "mediaElement" (options this))
    ∈ kinds_of "null|htmlvideoelement|htmlaudioelement" →
  truthy (get "mediaElement" (options this)) = true ↔ is_Some (mediaElement this).
Proof.
  unfold mediaElement, get. intros Hkind.
  destruct (options this !! "mediaElement") as [v|]; simpl in *.
  - destruct v as [| | | | | | |[]| | | |]; simpl in *;
      try (split; [done | by intros [? ?]]);
      try (split; [by eauto | done]);
      exfalso;
      repeat (apply elem_of_cons in Hkind as [Hkind|Hkind]; [discriminate|]);
      by apply elem_of_nil in Hkind.
  - split; [done | by intros [? ?]].
Qed.

(** C7: the getters switch on the media element. With one attached,
    [currentTime] and [duration] are the element's, whatever [_currentTime]
    holds; with none, [currentTime] is [_currentTime] and [duration] is
    [Infinity]. *)
Theorem getters_source_of_truth (this : Instance) :
  (∀ m, mediaElement this = Some m →
     currentTime this = MediaElement.currentTime m
     ∧ duration this = MediaElement.duration m
     ∧ ∀ t, currentTime (set__currentTime t this) = MediaElement.currentTime m)
  ∧ (mediaElement this = None →
     currentTime this = _currentTime this
     ∧ duration this = Infinity
     ∧ ∀ t, currentTime (set__currentTime t this) = t).
Proof.
  split.
  - intros m Hm. unfold currentTime, duration. rewrite Hm.
    split; [done|]. split; [done|]. intros t.
    change (mediaElement (set__currentTime t this)) with (mediaElement this).
    by rewrite Hm.
  - intros Hm. unfold currentTime, duration. rewrite Hm.
    split; [done|]. split; [done|]. intros t.
    change (mediaElement (set__currentTime t this)) with (mediaElement this).
    by rewrite Hm.
Qed.

(** C10: [playing] is false without a media element; with one, it is true
    exactly when the element's [currentTime] is greater than 0, it is not
    paused, it has not ended, and its [readyState] is greater than 2. *)
Theorem playing_spec (this : Instance) :
  (mediaElement this = None → playing this = false)
  ∧ (∀ m, mediaElement this = Some m →
       playing this = true
       ↔ num_gt (MediaElement.currentTime m) (num_Z 0) = true
         ∧ MediaElement.paused m = false
         ∧ MediaElement.ended m = false
         ∧ (MediaElement.readyState m > 2)%nat).
Proof.
  unfold playing. split.
  - by intros ->.
  - intros m ->. rewrite !andb_true_iff, !negb_true_iff, Nat.ltb_lt. tauto.
Qed.

(** ** The default options *)

(** C8: the default of [pixelRatio] is [Math.ceil] of the device pixel ratio
    of the environment the defaults are built in; for a finite ratio that is
    the least integer not below it. *)
Theorem default_pixelRatio :
  WFPlayer_default env !! "pixelRatio"
    = Some (VNumber (Math_ceil (devicePixelRatio env)))
  ∧ ∀ q, devicePixelRatio env = Fin q →
      Number_isInteger (Math_ceil (devicePixelRatio env)) = true
      ∧ num_le (devicePixelRatio env) (Math_ceil (devicePixelRatio env)) = true
      ∧ ∀ z : Z, num_le (devicePixelRatio env) (num_Z z) = true →
                 num_le (Math_ceil (devicePixelRatio env)) (num_Z z) = true.
Proof.
  split; [reflexivity|]. intros q ->. apply Math_ceil_least.
Qed.

(** ** [seek] *)

(** [seek] on a number. *)
Lemma seek_run (s : number) (w : World) :
  ∃ w', seek collab (VNumber s) w = (Return (), w')
    ∧ _currentTime (self w') = clamp s (num_Z 0) (duration (self w))
    ∧ (∀ m, mediaElement (self w) = Some m →
         mediaElement (self w')
         = Some (MediaElement.set_currentTime
                   (clamp s (num_Z 0) (duration (self w))) m))
    ∧ (mediaElement (self w) = None → mediaElement (self w') = None).
Proof.
  set (c := clamp s (num_Z 0) (duration (self w))).
  set (w1 := on_self (set__currentTime c) w).
  assert (H1 : mediaElement (self w1) = mediaElement (self w)) by done.
  assert (Hrun : ∃ w2, seek collab (VNumber s) w = update collab w2
            ∧ _currentTime (self w2) = c
            ∧ (∀ m, mediaElement (self w) = Some m →
                 mediaElement (self w2) = Some (MediaElement.set_currentTime c m))
            ∧ (mediaElement (self w) = None → mediaElement (self w2) = None)).
  { unfold seek. rewrite run_bind, run_errorHandle. cbn [typeof].
    rewrite bool_decide_eq_true_2 by done. rewrite run_bind.
    change (modify _ w) with (Return (), w1).
    cbv beta iota. rewrite run_bind.
    change (getState w1) with (Return w1, w1). cbv beta iota.
    rewrite H1. destruct (mediaElement (self w)) as [m|] eqn:Hm.
    - change (_currentTime (self w1)) with c. rewrite run_bind.
      destruct (num_strict_eq (MediaElement.currentTime m) c) eqn:Heq; cbn [negb].
      + exists w1. split; [done|]. split; [done|]. split; [|done].
        intros ? [= <-]. rewrite H1. f_equal.
        apply num_strict_eq_true in Heq. destruct m; simpl in *. by subst.
      + eexists. split; [reflexivity|]. split; [done|]. split; [|done].
        intros ? [= <-]. unfold mediaElement. cbn. by rewrite lookup_insert_eq.
    - exists w1. split; [done|]. split; [done|]. split; [done|].
      intros _. by rewrite H1. }
  destruct Hrun as (w2 & -> & Hct & Hsome & Hnone).
  destruct (update_keeps w2) as (w' & -> & Hct' & _ & Hopts & _).
  assert (Hme : mediaElement (self w') = mediaElement (self w2))
    by (unfold mediaElement; by rewrite Hopts).
  exists w'. split; [done|]. split; [congruence|]. split.
  - intros m Hm. rewrite Hme. by apply Hsome.
  - intros Hm. rewrite Hme. by apply Hnone.
Qed.


(** C9: without a media element [duration] is [Infinity], and [seek(s)] with
    a number [s >= 0] leaves exactly [s] in [_currentTime]: of the two bounds
    of the clamp only the lower one, 0, can apply. *)
Theorem seek_without_media (s : number) (w : World) :
  mediaElement (self w) = None →
  num_ge s (num_Z 0) = true →
  duration (self w) = Infinity
  ∧ ∃ w', seek collab (VNumber s) w = (Return (), w')
          ∧ _currentTime (self w') = s.
Proof.
  intros Hm Hs.
  assert (Hd : duration (self w) = Infinity) by (unfold duration; by rewrite Hm).
  split; [done|].
  destruct (seek_run s w) as (w' & Hrun & Hct & _).
  exists w'. split; [done|]. rewrite Hct, Hd. by apply clamp_below_only.
Qed.


(** ** The validator on the scheme *)

Lemma range_ok_documented (min max : number) (isInteger : bool) (v : value) :
  range_ok min max isInteger v = true ↔ in_documented_range min max isInteger v.
Proof.
  unfold in_documented_range, range_ok, num_ge. split.
  - destruct v; try discriminate. rewrite !andb_true_iff. intros [[? ?] Hint].
    eexists. repeat split; try done. by intros ->.
  - intros (n & -> & ? & ? & Hint). rewrite !andb_true_iff. repeat split; try done.
    destruct isInteger; auto.
Qed.

Lemma check_rule {S} (key : string) (r : Rule) (v : value) (s : S) :
  check key (rule_entry (key, r)).2 v s
  = (if rule_ok r v then Return () else Throw (rule_error key r v), s).
Proof.
  destruct r as [kinds|min max isInteger]; simpl.
  - by destruct (bool_decide _).
  - rewrite run_bind. unfold checkNum. rewrite run_bind, run_errorHandle.
    destruct v as [| | | n | | | |[]|[[]]| | |]; try reflexivity.
    rewrite bool_decide_eq_true_2 by done. rewrite run_bind, run_errorHandle.
    simpl. by destruct (_ && _).
Qed.

Lemma validate_rules {S} (opts : gmap string value)
    (rules : list (string * Rule)) (s : S) :
  validate opts (rule_entry <$> rules) s
  = (match first_error opts rules with
     | None => Return ()
     | Some e => Throw e
     end, s).
Proof.
  induction rules as [|[key r] rules IH]; [reflexivity|].
  change (rule_entry <$> (key, r) :: rules)
    with (rule_entry (S:=S) (key, r) :: (rule_entry <$> rules)).
  assert (Hkey : (rule_entry (S:=S) (key, r)).1 = key) by (by destruct r).
  destruct (rule_entry (S:=S) (key, r)) as [key' sch] eqn:Hentry.
  simpl in Hkey. subst key'. cbn [validate first_error].
  rewrite run_bind.
  replace sch with (rule_entry (S:=S) (key, r)).2 by (by rewrite Hentry).
  rewrite check_rule. by destruct (rule_ok r (get key opts)).
Qed.

(** [WFPlayer.scheme] is made of these rules: the numeric options of the
    scheme are the documented ones, with the documented bounds and kinds. *)
Lemma scheme_rules {S} : WFPlayer_scheme (S:=S) = rule_entry <$> WFPlayer_rules.
Proof. reflexivity. Qed.

Lemma first_error_None (opts : gmap string value) (rules : list (string * Rule)) :
  first_error opts rules = None
  ↔ ∀ key r, (key, r) ∈ rules → rule_ok r (get key opts) = true.
Proof.
  induction rules as [|[key r] rules IH]; simpl.
  - split; [|done]. intros _ ? ? H. by apply elem_of_nil in H.
  - destruct (rule_ok r (get key opts)) eqn:Hok.
    + rewrite IH. split.
      * intros H k r' [[= -> ->]|Hin]%elem_of_cons; auto.
      * intros H k r' Hin. apply H. by right.
    + split; [done|]. intros H. rewrite (H key r) in Hok; [done|by left].
Qed.

Lemma first_error_ConfigError (opts : gmap string value)
    (rules : list (string * Rule)) (e : Error) :
  first_error opts rules = Some e → taxonomy e = Some ConfigError.
Proof.
  induction rules as [|[key r] rules IH]; simpl; [done|].
  destruct (rule_ok r (get key opts)); [done|]. intros [= <-].
  destruct r; [done|]. simpl. by destruct (get key opts).
Qed.

(** ** [setOptions] *)

(** [setOptions] on an object: the first error of the scheme on the merged
    options, raised before anything is assigned; without one, the merged
    options are assigned and the instance is updated. *)
Lemma setOptions_object (o : gmap string value) (w : World) :
  setOptions env collab (VObject o) w
  = match first_error (merged env o (options (self w))) WFPlayer_rules with
    | Some e => (Throw e, w)
    | None =>
        update collab
          (on_self (set_options (merged env o (options (self w)))) w)
    end.
Proof.
  unfold setOptions. rewrite run_bind, run_errorHandle. cbn [kindOf].
  rewrite bool_decide_eq_true_2 by done. cbv beta iota zeta.
  rewrite run_bind. change (getState w) with (Return w, w). cbv beta iota.
  rewrite run_bind. unfold validator. rewrite run_bind.
  rewrite scheme_rules, validate_rules.
  fold (resolved env o). fold (merged env o (options (self w))).
  by destruct (first_error _ _).
Qed.

(** The rules of the scheme hold of an option object exactly when every
    option given by kinds has one of its kinds and every numeric option is a
    number of its documented range and kind. *)
Lemma rules_documented (opts : gmap string value) :
  (∀ key r, (key, r) ∈ WFPlayer_rules → rule_ok r (get key opts) = true)
  ↔ (∀ key kinds, (key, kinds) ∈ type_schemes →
       kindOf (get key opts) ∈ kinds_of kinds)
    ∧ (∀ key min max isInteger,
         (key, (min, max, isInteger)) ∈ documented_ranges →
         in_documented_range min max isInteger (get key opts)).
Proof.
  unfold WFPlayer_rules. split.
  - intros H. split.
    + intros key kinds Hin.
      assert (Hok : rule_ok (Kinds kinds) (get key opts) = true).
      { apply H, elem_of_app. left. apply list_elem_of_fmap.
        by exists (key, kinds). }
      by apply bool_decide_eq_true in Hok.
    + intros key min max isInteger Hin. apply range_ok_documented.
      apply (H key (Range min max isInteger)), elem_of_app. right.
      apply list_elem_of_fmap. by exists (key, (min, max, isInteger)).
  - intros [Htypes Hranges] key r [Hin|Hin]%elem_of_app.
    + apply list_elem_of_fmap in Hin as ([k kinds] & [= -> ->] & Hin).
      apply bool_decide_eq_true. by apply Htypes.
    + apply list_elem_of_fmap in Hin as ([k [[min max] isInteger]] & [= -> ->] & Hin).
      apply range_ok_documented. by apply Hranges.
Qed.

(** What [setOptions] accepts is stored; what it rejects changes nothing. *)
Lemma setOptions_outcome (o : gmap string value) (w : World) :
  (first_error (merged env o (options (self w))) WFPlayer_rules = None
   ∧ ∃ w', setOptions env collab (VObject o) w = (Return (), w')
           ∧ options (self w') = merged env o (options (self w)))
  ∨ (∃ e, first_error (merged env o (options (self w))) WFPlayer_rules = Some e
          ∧ setOptions env collab (VObject o) w = (Throw e, w)
          ∧ taxonomy e = Some ConfigError).
Proof.
  rewrite setOptions_object.
  destruct (first_error _ _) as [e|] eqn:Herr.
  - right. exists e. eauto using first_error_ConfigError.
  - left. split; [done|].
    destruct (update_keeps (on_self (set_options (merged env o (options (self w)))) w))
      as (w' & -> & _ & _ & Hopts & _).
    by exists w'.
Qed.

(** The options [setOptions] stores have a [mediaElement] of a kind of the
    scheme, which is what the getters rely on. *)
Lemma setOptions_mediaElement (o : gmap string value) (w w' : World) :
  setOptions env collab (VObject o) w = (Return (), w') →
  kindOf (get "mediaElement" (options (self w')))
    ∈ kinds_of "null|htmlvideoelement|htmlaudioelement".
Proof.
  intros Hrun.
  destruct (setOptions_outcome o w) as [(Hnone & w'' & Hrun' & Hopts)|(e & _ & Hrun' & _)];
    [|congruence].
  rewrite Hrun in Hrun'. injection Hrun' as <-. rewrite Hopts.
  rewrite first_error_None in Hnone. apply rules_documented in Hnone as [Htypes _].
  apply Htypes. unfold type_schemes. cbn. apply list_elem_of_further, list_elem_of_here.
Qed.

(** C5: [setOptions] accepts an option object exactly when, after the merge
    with the options of the instance and the defaults, every option given by
    kinds has one of its kinds and every numeric option is a number of its
    documented range and kind: [refreshDelay] an integer of [[16, 1000]],
    [channel] an integer of [[0, 5]], [duration] and [padding] integers of
    [[1, 100]], [waveScale] a number of [[0.1, 10]], [pixelRatio] a number of
    [[1, 10]]. Anything else is rejected with a configuration error. *)
Theorem setOptions_accepts_documented (o : gmap string value) (w : World) :
  ((∃ w', setOptions env collab (VObject o) w = (Return (), w'))
   ↔ (∀ key kinds, (key, kinds) ∈ type_schemes →
        kindOf (get key (merged env o (options (self w)))) ∈ kinds_of kinds)
     ∧ (∀ key min max isInteger,
          (key, (min, max, isInteger)) ∈ documented_ranges →
          in_documented_range min max isInteger
            (get key (merged env o (options (self w))))))
  ∧ ((∃ w', setOptions env collab (VObject o) w = (Return (), w'))
     ∨ (∃ e, setOptions env collab (VObject o) w = (Throw e, w)
             ∧ taxonomy e = Some ConfigError)).
Proof.
  split.
  - rewrite <- rules_documented, <- first_error_None.
    destruct (setOptions_outcome o w) as [(Hnone & w' & Hrun & _)|(e & Herr & Hrun & _)].
    + split; [done|]. intros _. by exists w'.
    + rewrite Hrun, Herr. split; [by intros [? ?]|done].
  - destruct (setOptions_outcome o w) as [(_ & w' & Hrun & _)|(e & _ & Hrun & Hclass)].
    + left. by exists w'.
    + right. by exists e.
Qed.

Lemma documented_keys (key : string) (range : number * number * bool) :
  (key, range) ∈ documented_ranges → key ≠ "container" ∧ key ≠ "mediaElement".
Proof.
  unfold documented_ranges. intros Hin.
  repeat (apply elem_of_cons in Hin as [[= -> _]|Hin]; [done|]).
  by apply elem_of_nil in Hin.
Qed.

(** An option of the argument that is not a selector to look up is the
    option that is validated. *)
Lemma merged_lookup (o this_options : gmap string value) (key : string) (v : value) :
  key ≠ "container" → key ≠ "mediaElement" → o !! key = Some v →
  get key (merged env o this_options) = v.
Proof.
  intros Hc Hm Hkey. unfold get, merged.
  assert (Hres : resolved env o !! key = Some v).
  { unfold resolved.
    repeat match goal with
           | |- context [match ?x with _ => _ end] => destruct x
           end;
      by rewrite ?lookup_insert_ne. }
  rewrite <- (assoc_L (∪)).
  by rewrite (lookup_union_Some_l _ _ _ _ Hres).
Qed.

(** C2: when the argument of [setOptions] holds a number outside the
    documented range or kind of a numeric option, [setOptions] fails with a
    configuration error, and nothing has changed: the options of the
    instance are those it had before the call. *)
Theorem setOptions_out_of_range (o : gmap string value) (w : World)
    (key : string) (min max : number) (isInteger : bool) (n : number) :
  (key, (min, max, isInteger)) ∈ documented_ranges →
  o !! key = Some (VNumber n) →
  ¬ in_documented_range min max isInteger (VNumber n) →
  ∃ e w', setOptions env collab (VObject o) w = (Throw e, w')
          ∧ taxonomy e = Some ConfigError
          ∧ w' = w
          ∧ options (self w') = options (self w).
Proof.
  intros Hin Hkey Hout.
  destruct (documented_keys _ _ Hin) as [Hc Hm].
  destruct (setOptions_outcome o w) as [(Hnone & _)|(e & _ & Hrun & Hclass)].
  - exfalso. apply Hout.
    rewrite <- (merged_lookup o (options (self w)) key) by done.
    rewrite first_error_None in Hnone.
    by apply rules_documented in Hnone as [_ Hranges]; apply Hranges.
  - by exists e, w.
Qed.

(** ** [changeChannel] *)

(** C6: with decoded audio, [changeChannel(i)] for a number [i] that is not
    below the channel count fails with an invalid channel error, raised by
    the decoder before anything is assigned: the decoded audio with the peaks
    of the active channel and the options, [channel] among them, are those
    of before the call. *)
Theorem changeChannel_out_of_range (w : World) (audio : AudioBuffer.t)
    (peaks : list (number * number)) (i : number) :
  decoder (self w) = Some (Decoder.Ready audio peaks) →
  num_ge i (num_Z (Z.of_nat (AudioBuffer.numberOfChannels audio))) = true →
  ∃ e w', changeChannel env collab (VNumber i) w = (Throw e, w')
          ∧ taxonomy e = Some InvalidChannelError
          ∧ w' = w
          ∧ decoder (self w') = Some (Decoder.Ready audio peaks)
          ∧ options (self w') = options (self w).
Proof.
  intros Hdec Hge. exists (DecoderChannel (VNumber i)), w.
  split; [|done]. unfold changeChannel. rewrite run_bind.
  unfold decoder_changeChannel. rewrite run_bind.
  change (getState w) with (Return w, w). cbv beta iota. rewrite Hdec.
  rewrite run_bind, run_errorHandle.
  by rewrite (num_ge_not_lt _ _ Hge).
Qed.

(** ** [load] *)


(** ** [destroy] *)

(** C4 fails on the class: [destroy] on an instance that is no longer in the
    registry (it was destroyed before) succeeds, and removes the last
    instance of the registry, which is another one. *)
Theorem destroy_again_evicts (w : World) (this other : nat) (rest : list nat) :
  constructed (self w) →
  id (self w) = Some this →
  this ∉ instances w →
  instances w = rest ++ [other] →
  ∃ w', destroy collab w = (Return (), w') ∧ instances w' = rest.
Proof.
  intros ([ev Hev] & [t Ht] & [dec Hdec] & [d Hd] & [c Hc] & [l Hl]) Hid Hnotin Hinst.
  destruct w as [[ct dest opts ev' t' dec' d' c' l' i] mid insts em].
  simpl in *. subst. eexists. split; [reflexivity|].
  cbn [instances set_instances self on_self id set_isDestroy set_events
       set_template set_controller set_decoder set_loader set_drawer].
  rewrite indexOf_absent by done. apply splice_last.
Qed.

End Properties.

(** * The class at work *)

(** [seek(7)] on an instance without media element. *)
Lemma seek_without_media_on_a :
  mediaElement (self on_a) = None
  ∧ num_ge (num_Z 7) (num_Z 0) = true
  ∧ duration (self on_a) = Infinity
  ∧ ∃ w', seek idle (VNumber (num_Z 7)) on_a = (Return (), w')
          ∧ _currentTime (self w') = num_Z 7.
Proof.
  split; [by vm_compute|]. split; [by vm_compute|].
  apply (seek_without_media idle (num_Z 7) on_a); by vm_compute.
Defined.

(** [setOptions({ refreshDelay: 5 })]. *)
Lemma setOptions_refreshDelay_5 :
  ("refreshDelay", (num_Z 16, num_Z 1000, true)) ∈ documented_ranges
  ∧ ({[ "refreshDelay" := VNumber (num_Z 5) ]} : gmap string value) !! "refreshDelay"
    = Some (VNumber (num_Z 5))
  ∧ ¬ in_documented_range (num_Z 16) (num_Z 1000) true (VNumber (num_Z 5))
  ∧ ∃ e w', setOptions page idle
              (VObject {[ "refreshDelay" := VNumber (num_Z 5) ]}) on_a
            = (Throw e, w')
            ∧ taxonomy e = Some ConfigError
            ∧ w' = on_a
            ∧ options (self w') = options (self on_a).
Proof.
  assert (H1 : ("refreshDelay", (num_Z 16, num_Z 1000, true)) ∈ documented_ranges)
    by apply list_elem_of_here.
  assert (H2 : ({[ "refreshDelay" := VNumber (num_Z 5) ]} : gmap string value)
               !! "refreshDelay" = Some (VNumber (num_Z 5)))
    by reflexivity.
  assert (H3 : ¬ in_documented_range (num_Z 16) (num_Z 1000) true (VNumber (num_Z 5))).
  { intros (n & [= <-] & Hmin & _). vm_compute in Hmin. discriminate. }
  split; [exact H1|]. split; [exact H2|]. split; [exact H3|].
  exact (setOptions_out_of_range page idle _ on_a _ _ _ _ _ H1 H2 H3).
Defined.

(** [changeChannel(2)] on two decoded channels. *)
Lemma changeChannel_2_of_2 :
  decoder (self on_a_decoded) = Some (Decoder.Ready two_channels [])
  ∧ num_ge (num_Z 2)
      (num_Z (Z.of_nat (AudioBuffer.numberOfChannels two_channels))) = true
  ∧ ∃ e w', changeChannel page idle (VNumber (num_Z 2)) on_a_decoded = (Throw e, w')
            ∧ taxonomy e = Some InvalidChannelError
            ∧ w' = on_a_decoded
            ∧ decoder (self w') = Some (Decoder.Ready two_channels [])
            ∧ options (self w') = options (self on_a_decoded).
Proof.
  split; [by vm_compute|]. split; [by vm_compute|].
  apply (changeChannel_out_of_range page idle on_a_decoded two_channels [] (num_Z 2));
    by vm_compute.
Defined.



(** [a.destroy()] twice, with [b] alive: the first call takes [a] out of the
    registry, the second one takes [b] out. *)
Lemma destroy_a_twice :
  constructed (self a_destroyed)
  ∧ id (self a_destroyed) = Some 1%nat
  ∧ (1%nat ∉ instances a_destroyed)
  ∧ instances a_destroyed = [] ++ [2%nat]
  ∧ ∃ w', destroy idle a_destroyed = (Return (), w') ∧ instances w' = [].
Proof.
  assert (H1 : constructed (self a_destroyed))
    by (vm_compute; repeat split; by eexists).
  assert (H2 : id (self a_destroyed) = Some 1%nat) by (by vm_compute).
  assert (H4 : instances a_destroyed = [] ++ [2%nat]) by (by vm_compute).
  assert (H3 : 1%nat ∉ instances a_destroyed).
  { rewrite H4. intros [[=]|[]%elem_of_nil]%elem_of_cons. }
  split; [exact H1|]. split; [exact H2|]. split; [exact H3|]. split; [exact H4|].
  exact (destroy_again_evicts idle a_destroyed 1%nat 2%nat [] H1 H2 H3 H4).
Defined.

(** * More of the class *)

Section Coverage.
Context {Events Template Drawer Controller Loader : Type}.
Variable env : Environment.
Variable collab : Collaborators Events Template Drawer Controller Loader.

Abbreviation Instance := (Instance Events Template Drawer Controller Loader).
Abbreviation World := (World Events Template Drawer Controller Loader).

(** ** Arguments of the wrong type *)

(** X1: [seek] with anything but a number raises its error before it
    assigns anything. *)
Theorem seek_rejects_non_number (second : value) (w : World) :
  typeof second ≠ "number" →
  seek collab second w = (Throw SeekExpectsNumber, w).
Proof.
  intros Htype. unfold seek. rewrite run_bind, run_errorHandle.
  by rewrite bool_decide_eq_false_2.
Qed.

Lemma setOptions_non_object (opts : value) (w : World) :
  opts ≠ VUndefined → kindOf opts ≠ "object" →
  setOptions env collab opts w = (Throw SetOptionsExpectsObject, w).
Proof.
  intros Hdef Hkind. unfold setOptions.
  replace (match opts with VUndefined => VObject ∅ | _ => opts end) with opts
    by (by destruct opts).
  rewrite run_bind, run_errorHandle. by rewrite bool_decide_eq_false_2.
Qed.

(** X2: [setOptions] with an argument that is given and is not a plain
    object raises a configuration error and changes nothing. *)
Theorem setOptions_rejects_non_object (opts : value) (w : World) :
  opts ≠ VUndefined → kindOf opts ≠ "object" →
  ∃ e, setOptions env collab opts w = (Throw e, w)
       ∧ e = SetOptionsExpectsObject
       ∧ taxonomy e = Some ConfigError.
Proof.
  intros Hdef Hkind. exists SetOptionsExpectsObject.
  by rewrite setOptions_non_object.
Qed.

(** ** The merge of [setOptions] *)

Lemma resolved_lookup_None (o : gmap string value) (key : string) :
  o !! key = None → resolved env o !! key = None.
Proof.
  intros Hkey. unfold resolved, get.
  destruct (o !! "container") as [c|] eqn:Hc; simpl.
  - assert (key ≠ "container") by congruence.
    destruct c; simpl;
      try (destruct (o !! "mediaElement") as [[]|] eqn:Hm; simpl;
           rewrite ?lookup_insert_ne by congruence; done).
    rewrite lookup_insert_ne by done.
    destruct (o !! "mediaElement") as [[]|] eqn:Hm; simpl;
      rewrite ?lookup_insert_ne by congruence;
      by rewrite ?lookup_insert_ne by done.
  - destruct (o !! "mediaElement") as [[]|] eqn:Hm; simpl;
      by rewrite ?lookup_insert_ne by congruence.
Qed.

Lemma resolved_container (o : gmap string value) (selector : string) :
  o !! "container" = Some (VString selector) →
  resolved env o !! "container" = Some (querySelector env selector).
Proof.
  intros Hc. unfold resolved, get. rewrite Hc. simpl.
  rewrite lookup_insert_ne by done.
  destruct (o !! "mediaElement") as [[]|]; simpl;
    by rewrite ?lookup_insert_ne by done; rewrite lookup_insert_eq.
Qed.

(** X3: when [setOptions] succeeds, an option of the argument (other than
    the two that may be selectors) is stored as given, and an option the
    argument does not mention keeps the value the instance had, or takes its
    default when the instance had none. *)
Theorem setOptions_merges (o : gmap string value) (w w' : World) :
  setOptions env collab (VObject o) w = (Return (), w') →
  (∀ key v, key ≠ "container" → key ≠ "mediaElement" →
            o !! key = Some v → options (self w') !! key = Some v)
  ∧ (∀ key, o !! key = None →
            options (self w') !! key
            = (options (self w) ∪ WFPlayer_default env) !! key).
Proof.
  intros Hrun.
  destruct (setOptions_outcome env collab o w)
    as [(_ & w'' & Hrun' & Hopts)|(e & _ & Hrun' & _)]; [|congruence].
  rewrite Hrun in Hrun'. injection Hrun' as <-. rewrite Hopts. split.
  - intros key v Hc Hm Hkey.
    pose proof (merged_lookup env o (options (self w)) key v Hc Hm Hkey) as Hget.
    unfold get in Hget. unfold merged in *. rewrite <- (assoc_L (∪)) in *.
    destruct (resolved env o !! key) as [v'|] eqn:Hres.
    + rewrite (lookup_union_Some_l _ _ _ _ Hres) in *. simpl in Hget. by subst.
    + exfalso. revert Hres. unfold resolved.
      repeat match goal with
             | |- context [match ?x with _ => _ end] => destruct x
             end;
        rewrite ?lookup_insert_ne by done; congruence.
  - intros key Hkey. unfold merged. rewrite <- (assoc_L (∪)).
    by rewrite lookup_union_r by (by apply resolved_lookup_None).
Qed.
(** ** The container *)

(** The container is the first option of the scheme. *)
Lemma rules_head :
  WFPlayer_rules
  = ("container", Kinds "htmlelement|htmldivelement") :: tail WFPlayer_rules.
Proof. vm_compute. reflexivity. Qed.

Lemma first_error_head (opts : gmap string value) (rules rest : list (string * Rule))
    (key : string) (r : Rule) :
  rules = (key, r) :: rest →
  rule_ok r (get key opts) = false →
  first_error opts rules = Some (rule_error key r (get key opts)).
Proof. intros -> Hrule. simpl. by rewrite Hrule. Qed.

Lemma first_error_container (opts : gmap string value) :
  rule_ok (Kinds "htmlelement|htmldivelement") (get "container" opts) = false →
  first_error opts WFPlayer_rules
  = Some (SchemeType "container" "htmlelement|htmldivelement"
            (kindOf (get "container" opts))).
Proof.
  intros Hrule. exact (first_error_head opts _ _ _ _ rules_head Hrule).
Qed.

(** Without a container in the argument and in the instance, the one that
    is validated is the default, which is a selector and no element. *)
Lemma setOptions_without_container (o : gmap string value) (w : World) :
  o !! "container" = None →
  options (self w) !! "container" = None →
  setOptions env collab (VObject o) w
  = (Throw (SchemeType "container" "htmlelement|htmldivelement" "string"), w).
Proof.
  intros Ho Hw. rewrite setOptions_object.
  assert (Hget : get "container" (merged env o (options (self w)))
                 = VString "#waveform").
  { unfold get, merged. rewrite <- (assoc_L (∪)).
    rewrite lookup_union_r by (by apply resolved_lookup_None).
    by rewrite lookup_union_r. }
  rewrite first_error_container; by rewrite Hget.
Qed.

(** X5: a [container] given as a selector is looked up in the document. What
    the document returns is what is stored when [setOptions] succeeds; when
    that is no element of the two accepted kinds (nothing matched, say),
    [setOptions] raises the type error of the container and changes
    nothing. *)
Theorem setOptions_container_selector (o : gmap string value) (w : World)
    (selector : string) :
  o !! "container" = Some (VString selector) →
  (kindOf (querySelector env selector) ∉ kinds_of "htmlelement|htmldivelement" →
   setOptions env collab (VObject o) w
   = (Throw (SchemeType "container" "htmlelement|htmldivelement"
               (kindOf (querySelector env selector))), w))
  ∧ (∀ w', setOptions env collab (VObject o) w = (Return (), w') →
           options (self w') !! "container" = Some (querySelector env selector)).
Proof.
  intros Hc.
  assert (Hlook : merged env o (options (self w)) !! "container"
                  = Some (querySelector env selector)).
  { unfold merged. rewrite <- (assoc_L (∪)).
    by rewrite (lookup_union_Some_l _ _ _ _ (resolved_container o selector Hc)). }
  split.
  - intros Hkind. rewrite setOptions_object.
    rewrite first_error_container; unfold get; rewrite Hlook; [done|].
    by apply bool_decide_eq_false_2.
  - intros w' Hrun.
    destruct (setOptions_outcome env collab o w)
      as [(_ & w'' & Hrun' & Hopts)|(e & _ & Hrun' & _)]; [|congruence].
    rewrite Hrun in Hrun'. injection Hrun' as <-. by rewrite Hopts.
Qed.

(** ** The constructor *)

(** [setOptions] before the components exist: there is nothing to update. *)
Lemma setOptions_before_components (opts : value) (w : World) :
  template (self w) = None →
  (∃ o, setOptions env collab opts w
        = (Return (), on_self (set_options (merged env o (options (self w)))) w)
        ∧ first_error (merged env o (options (self w))) WFPlayer_rules = None
        ∧ (opts = VObject o ∨ opts = VUndefined ∧ o = ∅))
  ∨ (∃ e, setOptions env collab opts w = (Throw e, w)
          ∧ taxonomy e = Some ConfigError).
Proof.
  intros Ht.
  assert (Hobj : ∀ o, (∃ o', setOptions env collab (VObject o) w
        = (Return (), on_self (set_options (merged env o' (options (self w)))) w)
        ∧ first_error (merged env o' (options (self w))) WFPlayer_rules = None
        ∧ o' = o)
      ∨ (∃ e, setOptions env collab (VObject o) w = (Throw e, w)
              ∧ taxonomy e = Some ConfigError)).
  { intros o. rewrite setOptions_object.
    destruct (first_error _ _) as [e|] eqn:Herr.
    - right. exists e. eauto using first_error_ConfigError.
    - left. exists o. split; [|done]. unfold update. rewrite run_bind.
      cbn [getState self on_self template set_options]. by rewrite Ht. }
  destruct opts as [| | | | | | |[]|[[]]| | |props];
    try (right; exists SetOptionsExpectsObject; split; [|done];
         by apply setOptions_non_object).
  - change (setOptions env collab VUndefined w)
      with (setOptions env collab (VObject ∅) w).
    destruct (Hobj ∅) as [(o' & ? & ? & ->)|?]; [left; exists ∅|right]; eauto.
  - destruct (Hobj props) as [(o' & ? & ? & ->)|?]; [left; exists props|right]; eauto.
Qed.

(** X6: what the constructor leaves. When it returns, the instance has all
    its components, the counter [id] has grown by one, the instance carries
    its new value and stands last in the registry; nothing has been emitted.
    When it fails, it fails with a configuration error of [setOptions], and
    neither the counter nor the registry has changed. *)
Theorem constructor_outcome (opts : value) (w : World) :
  match constructor env collab opts w with
  | (Return _, w') =>
      module_id w' = S (module_id w)
      ∧ id (self w') = Some (S (module_id w))
      ∧ instances w' = instances w ++ [S (module_id w)]
      ∧ constructed (self w')
      ∧ _currentTime (self w') = num_Z 0
      ∧ isDestroy (self w') = false
      ∧ emitted w' = emitted w
  | (Throw e, w') =>
      taxonomy e = Some ConfigError
      ∧ module_id w' = module_id w
      ∧ instances w' = instances w
      ∧ emitted w' = emitted w
  end.
Proof.
  unfold constructor. rewrite run_bind. cbn [modify]. rewrite run_bind.
  match goal with
  | |- context [setOptions env collab opts ?w0] =>
      destruct (setOptions_before_components opts w0 eq_refl)
        as [(o & -> & _)|(e & -> & Hclass)]
  end.
  - destruct w as [this mid insts em].
    cbv [mbind M_bind modify update getState call mret M_ret on_self self
         template drawer set_events set_template set_decoder set_drawer
         set_controller set_loader set_options set_module_id set_id
         set_instances module_id instances emitted constructed events
         decoder controller loader id _currentTime isDestroy].
    repeat split; eauto.
  - by destruct w.
Qed.

(** The constructor returns exactly when its [setOptions] does: building the
    components, updating and registering cannot fail. *)
Lemma constructor_returns (opts : value) (w : World) :
  (∃ w', constructor env collab opts w = (Return (), w'))
  ↔ ∃ o, first_error (merged env o ∅) WFPlayer_rules = None
         ∧ (opts = VObject o ∨ opts = VUndefined ∧ o = ∅).
Proof.
  unfold constructor. rewrite run_bind. cbn [modify]. rewrite run_bind.
  match goal with
  | |- context [setOptions env collab opts ?w0] =>
      destruct (setOptions_before_components opts w0 eq_refl)
        as [(o & Hrun & Hnone & Hopts)|(e & Hrun & Hclass)];
      rewrite Hrun
  end.
  - split; [intros _; by exists o|]. intros _.
    destruct w as [this mid insts em].
    cbv [mbind M_bind modify update getState call mret M_ret on_self self
         template drawer set_events set_template set_decoder set_drawer
         set_controller set_loader set_options set_module_id set_id
         set_instances module_id instances emitted events
         decoder controller loader id _currentTime isDestroy].
    eexists. reflexivity.
  - split; [by intros [? ?]|]. intros (o & Hnone & Hopts). exfalso.
    assert (Hobj : setOptions env collab (VObject o)
                     (on_self (λ _, Build_Instance (num_Z 0) false ∅ None None
                                      None None None None None) w)
                   = setOptions env collab opts
                       (on_self (λ _, Build_Instance (num_Z 0) false ∅ None None
                                        None None None None None) w))
      by (by destruct Hopts as [->|[-> ->]]).
    rewrite Hrun, setOptions_object in Hobj.
    cbn [self on_self options] in Hobj. rewrite Hnone in Hobj.
    destruct (update_keeps collab
                (on_self (set_options (merged env o ∅))
                   (on_self (λ _, Build_Instance (num_Z 0) false ∅ None None
                                    None None None None None) w)))
      as (w' & Hup & _).
    cbn [self on_self options] in Hup. congruence.
Qed.

(** X4: without a [container] in its argument the constructor fails on the
    container: the default is the selector ['#waveform'], a string, which is
    validated as it is. Neither the counter nor the registry has changed. *)
Theorem constructor_needs_container (o : gmap string value) (w : World) :
  o !! "container" = None →
  ∃ w', constructor env collab (VObject o) w
        = (Throw (SchemeType "container" "htmlelement|htmldivelement" "string"), w')
        ∧ module_id w' = module_id w
        ∧ instances w' = instances w.
Proof.
  intros Ho. unfold constructor. rewrite run_bind. cbn [modify]. rewrite run_bind.
  rewrite setOptions_without_container by done.
  eexists. split; [reflexivity|]. by destruct w.
Qed.

Lemma first_error_app (opts : gmap string value) (rules1 rules2 : list (string * Rule)) :
  first_error opts rules1 = None →
  first_error opts (rules1 ++ rules2) = first_error opts rules2.
Proof.
  induction rules1 as [|[key r] rules1 IH]; [done|]. simpl.
  destruct (rule_ok r (get key opts)); [done|discriminate].
Qed.

(** The bounds of [pixelRatio] are the last rule of the scheme. *)
Lemma rules_last :
  WFPlayer_rules
  = removelast WFPlayer_rules ++ [("pixelRatio", Range (num_Z 1) (num_Z 10) false)].
Proof. vm_compute. reflexivity. Qed.

(** X10: with a [<div>] for container and nothing else, the constructor
    returns exactly when [Math.ceil] of the device pixel ratio, the default
    of [pixelRatio], is a number of [[1, 10]]: every other default passes the
    scheme. *)
Theorem constructor_with_container (w : World) :
  (∃ w', constructor env collab
           (VObject {[ "container" := VElement HTMLDivElement ]}) w
         = (Return (), w'))
  ↔ in_documented_range (num_Z 1) (num_Z 10) false
      (VNumber (Math_ceil (devicePixelRatio env))).
Proof.
  rewrite constructor_returns, <- range_ok_documented.
  set (o := {[ "container" := VElement HTMLDivElement ]} : gmap string value).
  assert (Hfirst : first_error (merged env o ∅) WFPlayer_rules
                   = if range_ok (num_Z 1) (num_Z 10) false
                          (VNumber (Math_ceil (devicePixelRatio env)))
                     then None
                     else Some (ExpectsRange "pixelRatio" false (num_Z 1) (num_Z 10)
                                  (Math_ceil (devicePixelRatio env)))).
  { rewrite rules_last, first_error_app by (by vm_compute).
    cbn [first_error rule_ok rule_error].
    replace (get "pixelRatio" (merged env o ∅))
      with (VNumber (Math_ceil (devicePixelRatio env))) by (by vm_compute).
    reflexivity. }
  split.
  - intros (o' & Hnone & [[= <-]|[[=] _]]). rewrite Hfirst in Hnone.
    by destruct (range_ok _ _ _ _).
  - intros Hok. exists o. split; [|by left]. by rewrite Hfirst, Hok.
Qed.

(** ** The registry *)

Lemma indexOf_found (x : nat) (before after : list nat) :
  x ∉ before → indexOf x (before ++ x :: after) = Z.of_nat (length before).
Proof.
  induction before as [|y before IH]; intros Hnotin.
  - simpl. by rewrite bool_decide_eq_true_2.
  - apply not_elem_of_cons in Hnotin as [Hne Hnotin].
    cbn [app indexOf]. rewrite bool_decide_eq_false_2 by done.
    rewrite IH by done.
    assert (Hlen : Z.of_nat (length (y :: before)) = Z.of_nat (length before) + 1)
      by (cbn [length]; lia).
    rewrite Hlen. destruct (Z.of_nat (length before)) as [|p|p] eqn:Hpos;
      [reflexivity|reflexivity|lia].
Qed.

Lemma splice_one (before after : list nat) (x : nat) :
  splice (Z.of_nat (length before)) 1 (before ++ x :: after) = before ++ after.
Proof.
  unfold splice.
  rewrite (proj2 (Z.ltb_ge _ _)) by lia.
  rewrite length_app. cbn [length].
  replace (Z.to_nat (Z.min (Z.of_nat (length before))
                       (Z.of_nat (length before + S (length after)))))
    with (length before) by lia.
  rewrite take_app_length. f_equal.
  rewrite <- drop_drop, drop_app_length. reflexivity.
Qed.

Lemma splice_sublist (start : Z) (deleteCount : nat) (array : list nat) :
  splice start deleteCount array `sublist_of` array.
Proof.
  unfold splice.
  set (n := Z.to_nat _).
  rewrite <- (take_drop n array) at 3.
  apply sublist_app; [done|]. rewrite <- drop_drop. apply sublist_drop.
Qed.

(** X8: [destroy] on a constructed instance that stands once in the registry
    returns, sets [isDestroy], and takes this instance, and no other, out of
    the registry; the counter and the options are as before. *)
Theorem destroy_unregisters (w : World) (this : nat) (before after : list nat) :
  constructed (self w) →
  id (self w) = Some this →
  instances w = before ++ this :: after →
  this ∉ before →
  ∃ w', destroy collab w = (Return (), w')
        ∧ instances w' = before ++ after
        ∧ isDestroy (self w') = true
        ∧ module_id w' = module_id w
        ∧ options (self w') = options (self w)
        ∧ id (self w') = Some this.
Proof.
  intros ([ev Hev] & [t Ht] & [dec Hdec] & [d Hd] & [c Hc] & [l Hl]) Hid Hinst Hnotin.
  destruct w as [[ct dest opts ev' t' dec' d' c' l' i] mid insts em].
  simpl in *. subst. eexists. split; [reflexivity|].
  cbn [instances set_instances self on_self id set_isDestroy set_events
       set_template set_controller set_decoder set_loader set_drawer
       isDestroy module_id options].
  rewrite indexOf_found by done. by rewrite splice_one.
Qed.

(** What [destroy] can do to the registry, whatever the instance: nothing,
    or one [splice]. *)
Lemma destroy_registry (w : World) :
  module_id (destroy collab w).2 = module_id w
  ∧ (instances (destroy collab w).2 = instances w
     ∨ ∃ start, instances (destroy collab w).2 = splice start 1 (instances w)).
Proof.
  destruct w as [[ct dest opts [ev|] [t|] [dec|] [d|] [c|] [l|] i] mid insts em];
    (split; [reflexivity|]);
    first [left; reflexivity | right; eexists; reflexivity].
Qed.

(** What the constructor can do to the registry: nothing when it fails; the
    next identity, appended, when it returns. *)
Lemma constructor_registry (opts : value) (w : World) :
  (module_id (constructor env collab opts w).2 = module_id w
   ∧ instances (constructor env collab opts w).2 = instances w)
  ∨ (module_id (constructor env collab opts w).2 = S (module_id w)
     ∧ instances (constructor env collab opts w).2
       = instances w ++ [S (module_id w)]).
Proof.
  unfold constructor. rewrite run_bind. cbn [modify]. rewrite run_bind.
  match goal with
  | |- context [setOptions env collab opts ?w0] =>
      destruct (setOptions_before_components opts w0 eq_refl)
        as [(o & -> & _)|(e & -> & Hclass)]
  end.
  - right. destruct w as [this mid insts em].
    cbv [mbind M_bind modify update getState call mret M_ret on_self self
         template drawer set_events set_template set_decoder set_drawer
         set_controller set_loader set_options set_module_id set_id
         set_instances module_id instances emitted events
         decoder controller loader id _currentTime isDestroy snd].
    done.
  - left. by destruct w.
Qed.

(** X7: the constructor and [destroy] keep the registry well formed: no
    instance stands in it twice, and none with an identity beyond the
    counter. So the identity the constructor gives is new. *)
Theorem registry_ok_kept (opts : value) (w : World) :
  registry_ok w →
  registry_ok (constructor env collab opts w).2
  ∧ registry_ok (destroy collab w).2.
Proof.
  intros [Hnodup Hbound]. split.
  - unfold registry_ok.
    destruct (constructor_registry opts w) as [[-> ->]|[-> ->]]; [done|].
    split.
    + apply NoDup_app. split; [done|]. split; [|apply NoDup_singleton].
      intros k Hk [->|[]%elem_of_nil]%elem_of_cons. apply Hbound in Hk. lia.
    + intros k [Hk|[->|[]%elem_of_nil]%elem_of_cons]%elem_of_app; [|lia].
      apply Hbound in Hk. lia.
  - unfold registry_ok.
    destruct (destroy_registry w) as [-> [->|[start ->]]]; [done|].
    split.
    + eapply sublist_NoDup; [done|apply splice_sublist].
    + intros k Hk. apply Hbound.
      eapply elem_of_sublist; [exact Hk|apply splice_sublist].
Qed.

(** ** Stored options *)

Lemma merged_stable (o this_options : gmap string value) :
  merged env ∅ (merged env o this_options) = merged env o this_options.
Proof.
  unfold merged. change (resolved env ∅) with (∅ : gmap string value).
  apply map_eq. intros key. rewrite !lookup_union, lookup_empty.
  destruct (resolved env o !! key), (this_options !! key),
    (WFPlayer_default env !! key); reflexivity.
Qed.

(** X9: the options that a successful [setOptions] stores satisfy the
    scheme, every numeric option being a number of its documented range and
    kind; a following [setOptions({})] therefore succeeds and stores the same
    options again. *)
Theorem setOptions_stores_valid (o : gmap string value) (w w1 : World) :
  setOptions env collab (VObject o) w = (Return (), w1) →
  (∀ key min max isInteger,
     (key, (min, max, isInteger)) ∈ documented_ranges →
     in_documented_range min max isInteger (get key (options (self w1))))
  ∧ ∃ w2, setOptions env collab (VObject ∅) w1 = (Return (), w2)
          ∧ options (self w2) = options (self w1).
Proof.
  intros Hrun.
  destruct (setOptions_outcome env collab o w)
    as [(Hnone & w' & Hrun' & Hopts)|(e & _ & Hrun' & _)]; [|congruence].
  rewrite Hrun in Hrun'. injection Hrun' as <-. split.
  - rewrite Hopts. rewrite first_error_None in Hnone.
    by apply rules_documented in Hnone as [_ Hranges].
  - destruct (setOptions_outcome env collab ∅ w1)
      as [(_ & w2 & Hrun2 & Hopts2)|(e & Herr & _)].
    + exists w2. split; [done|]. by rewrite Hopts2, Hopts, merged_stable.
    + rewrite Hopts, merged_stable in Herr. congruence.
Qed.

(** ** [load] *)

(** X11: [load] of a media element that has a source, on a constructed
    instance, returns with the element attached: from then on the getters
    report the element's [currentTime] and [duration]. The [load] event is
    what has been emitted. *)
Theorem load_media_element (m : MediaElement.t) (w : World) :
  constructed (self w) →
  trim (MediaElement.currentSrc m) ≠ "" →
  ∃ w', load collab (VMedia m) w = (Return (), w')
        ∧ mediaElement (self w') = Some m
        ∧ currentTime (self w') = MediaElement.currentTime m
        ∧ duration (self w') = MediaElement.duration m
        ∧ emitted w' = emitted w ++ [("load", VMedia m)].
Proof.
  intros ([ev Hev] & [t Ht] & [dec Hdec] & [d Hd] & [c Hc] & [l Hl]) Hsrc.
  destruct w as [[ct dest opts ev' t' dec' d' c' l' i] mid insts em].
  simpl in *. subst.
  unfold load. rewrite run_bind. unfold emit at 1. cbn [modify].
  cbn [has_getChannelData has_buffer].
  cbv [mbind M_bind mret M_ret modify errorHandle throw call on_self self
       loader controller set_loader set_controller set_options options].
  rewrite bool_decide_eq_false_2 by done. cbn [negb].
  eexists. split; [reflexivity|].
  unfold currentTime, duration, mediaElement. cbn.
  by rewrite lookup_insert_eq.
Qed.


(** ** [seek] *)


(** X14: whatever the target and whatever becomes of the call, [load] first
    emits the [load] event with the target it was given: the events emitted
    before are followed by this one. *)
Theorem load_emits_first (target : value) (w : World) :
  ∃ rest, emitted (load collab target w).2
          = emitted w ++ ("load", target) :: rest.
Proof.
  destruct w as [[ct dest opts ev t dec d c l i] mid insts em].
  unfold load. rewrite run_bind. unfold emit at 1. cbn [modify].
  destruct (has_getChannelData target) eqn:Hbuffer;
    [|destruct (has_buffer target) eqn:Hbytes].
  - unfold decoder_decodeSuccess, decoder_set, emit.
    destruct target; try discriminate;
      try destruct (bool_decide (AudioBuffer.numberOfChannels a = 0%nat));
      destruct dec, c;
      cbv [mbind M_bind mret M_ret modify getState throw call on_self self
           decoder controller set_decoder set_controller set_emitted emitted snd];
      rewrite <- ?app_assoc; eexists; reflexivity.
  - unfold decoder_decodeAudioData, decoder_set.
    destruct dec, c;
      cbv [mbind M_bind mret M_ret modify getState throw call on_self self
           decoder controller set_decoder set_controller set_emitted emitted snd];
      eexists; reflexivity.
  - destruct target, l, c;
      cbv [mbind M_bind mret M_ret modify getState throw call on_self self
           errorHandle negb loader controller set_loader set_controller
           set_options set_emitted emitted snd];
      repeat match goal with
             | |- context [bool_decide ?P] => destruct (bool_decide P)
             end;
      eexists; reflexivity.
Qed.

(** ** [changeChannel] *)

(** The decoder's [changeChannel] leaves the options alone, and the
    components [update] needs. *)
Lemma decoder_changeChannel_options (index : value) (w : World) :
  options (self (decoder_changeChannel collab index w).2) = options (self w).
Proof.
  destruct w as [[ct dest opts ev t dec d c l i] mid insts em].
  unfold decoder_changeChannel. rewrite run_bind. cbn [getState self decoder].
  destruct dec as [[]|]; try reflexivity.
  destruct index; try reflexivity.
  rewrite run_bind, run_errorHandle.
  by destruct (num_lt _ _).
Qed.

(** X13: [changeChannel] returns only for an integer of [[0, 5]], and then
    that channel is what [options.channel] holds; when it fails, for whatever
    reason, the options are those of before the call. *)
Theorem changeChannel_outcome (channel : value) (w : World) :
  match changeChannel env collab channel w with
  | (Return _, w') =>
      get "channel" (options (self w')) = channel
      ∧ in_documented_range (num_Z 0) (num_Z 5) true channel
  | (Throw _, w') => options (self w') = options (self w)
  end.
Proof.
  unfold changeChannel. rewrite run_bind.
  pose proof (decoder_changeChannel_options channel w) as Hframe.
  destruct (decoder_changeChannel collab channel w) as [[[]|e] w1]; [|done].
  cbn [snd] in Hframe. rewrite run_bind.
  set (o := {[ "channel" := channel ]} : gmap string value).
  assert (Hget : get "channel" (merged env o (options (self w1))) = channel)
    by (apply merged_lookup; [done|done|apply lookup_singleton_eq]).
  destruct (setOptions_outcome env collab o w1)
    as [(Hnone & w2 & -> & Hopts)|(e & _ & -> & _)]; [|done].
  destruct (update_keeps collab w2) as (w3 & -> & _ & _ & Hopts3 & _).
  rewrite Hopts3, Hopts, Hget. split; [done|].
  rewrite first_error_None in Hnone.
  apply rules_documented in Hnone as [_ Hranges].
  rewrite <- Hget. apply Hranges.
  apply list_elem_of_further, list_elem_of_here.
Qed.

(** ** Attaching a media element through the options *)

Lemma resolved_mediaElement (o : gmap string value) (v : value) :
  o !! "mediaElement" = Some v → typeof v ≠ "string" →
  resolved env o !! "mediaElement" = Some v.
Proof.
  intros Hm Htype. unfold resolved, get.
  assert (Hm' : ∀ c, <["container" := c]> o !! "mediaElement" = Some v)
    by (intros c; by rewrite lookup_insert_ne).
  destruct (o !! "container") as [[]|]; simpl;
    rewrite ?Hm', ?Hm; simpl; destruct v; try done; by rewrite ?Hm'.
Qed.

(** X15: [setOptions] is how a media element is attached and detached. When
    it succeeds with a media element for [mediaElement], the getters report
    the [currentTime] and [duration] of that element; when it succeeds with
    [null], they report [_currentTime], which it has not changed, and
    [Infinity], and [playing] is false. *)
Theorem setOptions_mediaElement_switch (o : gmap string value) (w w' : World) :
  setOptions env collab (VObject o) w = (Return (), w') →
  (∀ m, o !! "mediaElement" = Some (VMedia m) →
        currentTime (self w') = MediaElement.currentTime m
        ∧ duration (self w') = MediaElement.duration m)
  ∧ (o !! "mediaElement" = Some VNull →
     currentTime (self w') = _currentTime (self w)
     ∧ duration (self w') = Infinity
     ∧ playing (self w') = false).
Proof.
  intros Hrun.
  destruct (setOptions_outcome env collab o w)
    as [(_ & w'' & Hrun' & Hopts)|(e & _ & Hrun' & _)]; [|congruence].
  rewrite Hrun in Hrun'. injection Hrun' as <-.
  assert (Hct : _currentTime (self w') = _currentTime (self w)).
  { rewrite setOptions_object in Hrun.
    destruct (first_error _ _); [congruence|].
    destruct (update_keeps collab
                (on_self (set_options (merged env o (options (self w)))) w))
      as (w2 & Hup & Hct & _).
    rewrite Hup in Hrun. by injection Hrun as <-. }
  assert (Hlook : ∀ v, o !! "mediaElement" = Some v → typeof v ≠ "string" →
                       options (self w') !! "mediaElement" = Some v).
  { intros v Hv Htype. rewrite Hopts. unfold merged. rewrite <- (assoc_L (∪)).
    by rewrite (lookup_union_Some_l _ _ _ _ (resolved_mediaElement o v Hv Htype)). }
  split.
  - intros m Hm. unfold currentTime, duration, mediaElement.
    by rewrite (Hlook _ Hm).
  - intros Hnull. unfold currentTime, duration, playing, mediaElement.
    by rewrite (Hlook _ Hnull).
Qed.

(** X17: [setOptions] is all or nothing, for every argument. When it fails,
    the error is a configuration error and the world is the one of before
    the call. When it returns, only the options and what [update] redraws
    have changed: [_currentTime], the decoder, the identity, the registry
    and the emitted events are as before. *)
Theorem setOptions_all_or_nothing (opts : value) (w : World) :
  match setOptions env collab opts w with
  | (Throw e, w') => w' = w ∧ taxonomy e = Some ConfigError
  | (Return _, w') =>
      _currentTime (self w') = _currentTime (self w)
      ∧ isDestroy (self w') = isDestroy (self w)
      ∧ decoder (self w') = decoder (self w)
      ∧ id (self w') = id (self w)
      ∧ module_id w' = module_id w
      ∧ instances w' = instances w
      ∧ emitted w' = emitted w
  end.
Proof.
  assert (Hobj : ∀ o,
    match setOptions env collab (VObject o) w with
    | (Throw e, w') => w' = w ∧ taxonomy e = Some ConfigError
    | (Return _, w') =>
        _currentTime (self w') = _currentTime (self w)
        ∧ isDestroy (self w') = isDestroy (self w)
        ∧ decoder (self w') = decoder (self w)
        ∧ id (self w') = id (self w)
        ∧ module_id w' = module_id w
        ∧ instances w' = instances w
        ∧ emitted w' = emitted w
    end).
  { intros o. rewrite setOptions_object.
    destruct (first_error _ _) as [e|] eqn:Herr.
    - eauto using first_error_ConfigError.
    - destruct (update_keeps collab
                  (on_self (set_options (merged env o (options (self w)))) w))
        as (w2 & -> & Hct & Hdest & _ & Hdec & Hid & Hmid & Hinst & Hem).
      by destruct w as [[] ? ? ?]. }
  destruct opts as [| | | | | | |[]|[[]]| | |props];
    try (rewrite setOptions_non_object by done; done).
  - change (setOptions env collab VUndefined w)
      with (setOptions env collab (VObject ∅) w).
    exact (Hobj ∅).
  - exact (Hobj props).
Qed.

End Coverage.

(** ** The class at work, continued *)

(** [a.seek('7')]. *)
Lemma seek_string_on_a :
  typeof (VString "7") ≠ "number"
  ∧ seek idle (VString "7") on_a = (Throw SeekExpectsNumber, on_a).
Proof.
  assert (H : typeof (VString "7") ≠ "number") by discriminate.
  split; [exact H|]. exact (seek_rejects_non_number idle (VString "7") on_a H).
Defined.

(** [a.setOptions([])]. *)
Lemma setOptions_array_on_a :
  VArray ≠ VUndefined
  ∧ kindOf VArray ≠ "object"
  ∧ ∃ e, setOptions page idle VArray on_a = (Throw e, on_a)
         ∧ e = SetOptionsExpectsObject
         ∧ taxonomy e = Some ConfigError.
Proof.
  assert (H1 : VArray ≠ VUndefined) by discriminate.
  assert (H2 : kindOf VArray ≠ "object") by discriminate.
  split; [exact H1|]. split; [exact H2|].
  exact (setOptions_rejects_non_object page idle VArray on_a H1 H2).
Defined.

(** [a.setOptions({ duration: 20 })]: [duration] is 20, the other options
    are those of before. *)
Lemma setOptions_duration_20 :
  setOptions page idle (VObject {[ "duration" := VNumber (num_Z 20) ]}) on_a
  = (Return (), a_duration_20)
  ∧ (∀ key v, key ≠ "container" → key ≠ "mediaElement" →
       ({[ "duration" := VNumber (num_Z 20) ]} : gmap string value) !! key = Some v →
       options (self a_duration_20) !! key = Some v)
  ∧ (∀ key,
       ({[ "duration" := VNumber (num_Z 20) ]} : gmap string value) !! key = None →
       options (self a_duration_20) !! key
       = (options (self on_a) ∪ WFPlayer_default page) !! key).
Proof.
  assert (H : setOptions page idle
                (VObject {[ "duration" := VNumber (num_Z 20) ]}) on_a
              = (Return (), a_duration_20)) by (by vm_compute).
  split; [exact H|].
  exact (setOptions_merges page idle _ on_a a_duration_20 H).
Defined.

(** [new WFPlayer({})]. *)
Lemma constructor_without_container :
  (∅ : gmap string value) !! "container" = None
  ∧ ∃ w', constructor page idle (VObject ∅) start
          = (Throw (SchemeType "container" "htmlelement|htmldivelement" "string"), w')
          ∧ module_id w' = module_id start
          ∧ instances w' = instances start.
Proof.
  assert (H : (∅ : gmap string value) !! "container" = None) by reflexivity.
  split; [exact H|]. exact (constructor_needs_container page idle ∅ start H).
Defined.

(** [a.setOptions({ container: '#missing' })]: nothing matches. *)
Lemma setOptions_missing_container :
  ({[ "container" := VString "#missing" ]} : gmap string value) !! "container"
  = Some (VString "#missing")
  ∧ (kindOf (querySelector page "#missing") ∉ kinds_of "htmlelement|htmldivelement" →
     setOptions page idle (VObject {[ "container" := VString "#missing" ]}) on_a
     = (Throw (SchemeType "container" "htmlelement|htmldivelement"
                 (kindOf (querySelector page "#missing"))), on_a))
  ∧ (∀ w', setOptions page idle (VObject {[ "container" := VString "#missing" ]}) on_a
           = (Return (), w') →
           options (self w') !! "container" = Some (querySelector page "#missing")).
Proof.
  assert (H : ({[ "container" := VString "#missing" ]} : gmap string value)
              !! "container" = Some (VString "#missing")) by reflexivity.
  split; [exact H|].
  exact (setOptions_container_selector page idle _ on_a "#missing" H).
Defined.

(** The registry after the two constructions is well formed, and stays so. *)
Lemma registry_ok_on_a :
  registry_ok on_a
  ∧ registry_ok (constructor page idle (VObject ∅) on_a).2
  ∧ registry_ok (destroy idle on_a).2.
Proof.
  assert (Hinst : instances on_a = [1; 2]%nat) by (by vm_compute).
  assert (Hmid : module_id on_a = 2%nat) by (by vm_compute).
  assert (H : registry_ok on_a).
  { unfold registry_ok. rewrite Hinst, Hmid. split.
    - apply NoDup_cons. split; [|apply NoDup_singleton].
      intros [[=]|[]%elem_of_nil]%elem_of_cons.
    - intros k [->|[->|[]%elem_of_nil]%elem_of_cons]%elem_of_cons; lia. }
  split; [exact H|].
  exact (registry_ok_kept page idle (VObject ∅) on_a H).
Defined.

(** [a.destroy()], with [b] alive. *)
Lemma destroy_a_once :
  constructed (self on_a)
  ∧ id (self on_a) = Some 1%nat
  ∧ instances on_a = [] ++ 1%nat :: [2%nat]
  ∧ (1%nat ∉ ([] : list nat))
  ∧ ∃ w', destroy idle on_a = (Return (), w')
          ∧ instances w' = [] ++ [2%nat]
          ∧ isDestroy (self w') = true
          ∧ module_id w' = module_id on_a
          ∧ options (self w') = options (self on_a)
          ∧ id (self w') = Some 1%nat.
Proof.
  assert (H1 : constructed (self on_a))
    by (vm_compute; repeat split; by eexists).
  assert (H2 : id (self on_a) = Some 1%nat) by (by vm_compute).
  assert (H3 : instances on_a = [] ++ 1%nat :: [2%nat]) by (by vm_compute).
  assert (H4 : 1%nat ∉ ([] : list nat)) by apply not_elem_of_nil.
  split; [exact H1|]. split; [exact H2|]. split; [exact H3|]. split; [exact H4|].
  exact (destroy_unregisters idle on_a 1%nat [] [2%nat] H1 H2 H3 H4).
Defined.

(** [a.setOptions({ duration: 20 })], then [a.setOptions({})]. *)
Lemma setOptions_duration_20_again :
  setOptions page idle (VObject {[ "duration" := VNumber (num_Z 20) ]}) on_a
  = (Return (), a_duration_20)
  ∧ (∀ key min max isInteger,
       (key, (min, max, isInteger)) ∈ documented_ranges →
       in_documented_range min max isInteger
         (get key (options (self a_duration_20))))
  ∧ ∃ w2, setOptions page idle (VObject ∅) a_duration_20 = (Return (), w2)
          ∧ options (self w2) = options (self a_duration_20).
Proof.
  assert (H : setOptions page idle
                (VObject {[ "duration" := VNumber (num_Z 20) ]}) on_a
              = (Return (), a_duration_20)) by (by vm_compute).
  split; [exact H|].
  exact (setOptions_stores_valid page idle _ on_a a_duration_20 H).
Defined.

(** [a.load(video)], the video having a source. *)
Lemma load_video_on_a :
  constructed (self on_a)
  ∧ trim (MediaElement.currentSrc video_playing) ≠ ""
  ∧ ∃ w', load idle (VMedia video_playing) on_a = (Return (), w')
          ∧ mediaElement (self w') = Some video_playing
          ∧ currentTime (self w') = MediaElement.currentTime video_playing
          ∧ duration (self w') = MediaElement.duration video_playing
          ∧ emitted w' = emitted on_a ++ [("load", VMedia video_playing)].
Proof.
  assert (H1 : constructed (self on_a))
    by (vm_compute; repeat split; by eexists).
  assert (H2 : trim (MediaElement.currentSrc video_playing) ≠ "")
    by (vm_compute; discriminate).
  split; [exact H1|]. split; [exact H2|].
  exact (load_media_element idle video_playing on_a H1 H2).
Defined.


(** [a.setOptions({ mediaElement: video })]. *)
Lemma setOptions_video_on_a :
  setOptions page idle (VObject {[ "mediaElement" := VMedia video_playing ]}) on_a
  = (Return (), a_video_attached)
  ∧ (∀ m, ({[ "mediaElement" := VMedia video_playing ]} : gmap string value)
            !! "mediaElement" = Some (VMedia m) →
          currentTime (self a_video_attached) = MediaElement.currentTime m
          ∧ duration (self a_video_attached) = MediaElement.duration m)
  ∧ (({[ "mediaElement" := VMedia video_playing ]} : gmap string value)
       !! "mediaElement" = Some VNull →
     currentTime (self a_video_attached) = _currentTime (self on_a)
     ∧ duration (self a_video_attached) = Infinity
     ∧ playing (self a_video_attached) = false).
Proof.
  assert (H : setOptions page idle
                (VObject {[ "mediaElement" := VMedia video_playing ]}) on_a
              = (Return (), a_video_attached)) by (by vm_compute).
  split; [exact H|].
  exact (setOptions_mediaElement_switch page idle _ on_a a_video_attached H).
Defined.
